(** * ArtworksTable: cross-page selection over a paginated catalogue

    A shallow embedding of [src/components/ArtworksTable.tsx]: the React
    component's six pieces of state, its event handlers, and the
    asynchronous page loader, followed by the properties of the selection
    store and of the page state.

    Conventions of the embedding.
    - A JavaScript value is a [value]; a JSON number is taken to be an
      integer, as the record shape has it (identifier, start and end year).
    - [Map<number, ...>] is a [gmap] from [key] to [Entry]; the order in
      which a JavaScript Map iterates (insertion order) is not modelled.
    - Every [useState] cell is a field of [State]; a setter replaces the
      field.  A handler runs to completion before the next event, so a
      handler is a function on the state.
    - [fetchPage] is asynchronous: [fetchPage_issue] is the part before the
      first [await], [fetchPage_resume] the part after it.  The resumed
      part reads [selectedMap] through the closure created when the fetch
      was issued. *)

From stdpp Require Import gmap strings list fin_maps pretty.

Set Warnings "-register-all,-clear-no-such-hyp".

Local Open Scope Z_scope.
Local Open Scope string_scope.
Local Open Scope list_scope.

(** ** JavaScript values *)

Module JS.

(** Values that [JSON.parse] produces, and [undefined].  An array or an
    object carries its reference: JavaScript compares the two by identity. *)
Inductive value :=
  | VUndefined
  | VNull
  | VBool (b : bool)
  | VNum (n : Z)
  | VStr (s : string)
  | VArr (ref : positive) (items : list value)
  | VObj (ref : positive) (fields : list (string * value)).

(** What [===] and the SameValueZero comparison of [Map] see of a value.
    The two comparisons differ on NaN only, which JSON cannot express. *)
Inductive key :=
  | KUndefined
  | KNull
  | KBool (b : bool)
  | KNum (n : Z)
  | KStr (s : string)
  | KRef (ref : positive).

Definition key_of (v : value) : key :=
  match v with
  | VUndefined => KUndefined
  | VNull => KNull
  | VBool b => KBool b
  | VNum n => KNum n
  | VStr s => KStr s
  | VArr ref _ => KRef ref
  | VObj ref _ => KRef ref
  end.

#[global] Instance key_eq_dec : EqDecision key.
Proof. solve_decision. Defined.

#[global] Instance key_countable : Countable key.
Proof.
  refine (inj_countable'
    (λ k, match k with
          | KUndefined => inl (inl ())
          | KNull => inl (inr ())
          | KBool b => inr (inl b)
          | KNum n => inr (inr (inl n))
          | KStr s => inr (inr (inr (inl s)))
          | KRef p => inr (inr (inr (inr p)))
          end)
    (λ c, match c with
          | inl (inl _) => KUndefined
          | inl (inr _) => KNull
          | inr (inl b) => KBool b
          | inr (inr (inl n)) => KNum n
          | inr (inr (inr (inl s))) => KStr s
          | inr (inr (inr (inr p))) => KRef p
          end) _).
  by intros [].
Defined.

(** Exceptions that reach the [catch] of [fetchPage]. *)
Inductive exn :=
  | FetchRejected    (* [fetch] rejects: the network failed *)
  | JsonRejected     (* [res.json()] rejects: the body is not JSON *)
  | TypeError.       (* a property of null/undefined, or a call of a non-function *)

Inductive result (A : Type) :=
  | Ok (a : A)
  | Throw (e : exn).
Arguments Ok {A} a.
Arguments Throw {A} e.

(** [v === undefined || v === null] *)
Definition nullish (v : value) : bool :=
  match v with
  | VUndefined | VNull => true
  | _ => false
  end.

(** [a ?? b] *)
Definition coalesce (a b : value) : value :=
  if nullish a then b else a.

(** [ToBoolean] *)
Definition truthy (v : value) : bool :=
  match v with
  | VUndefined | VNull => false
  | VBool b => b
  | VNum n => negb (n =? 0)%Z
  | VStr s => negb (String.eqb s "")
  | VArr _ _ | VObj _ _ => true
  end.

(** The own property [k] among the properties of a parsed object; a name
    listed twice is read at its first entry. *)
Fixpoint own (fields : list (string * value)) (k : string) : option value :=
  match fields with
  | [] => None
  | (k', v) :: rest => if String.eqb k' k then Some v else own rest k
  end.

(** [v.k], for the property names this component reads: [data],
    [pagination], [total] and the seven record fields.  No prototype
    defines any of them, so only an object's own property can answer. *)
Definition get (v : value) (k : string) : result value :=
  match v with
  | VUndefined | VNull => Throw TypeError
  | VObj _ fields => Ok (default VUndefined (own fields k))
  | _ => Ok VUndefined
  end.

(** [v?.k] *)
Definition get_opt (v : value) (k : string) : result value :=
  if nullish v then Ok VUndefined else get v k.

(** The receiver of [.map(f)]: an array gives its items, anything else
    has no callable [map]. *)
Definition array_items (v : value) : result (list value) :=
  match v with
  | VArr _ items => Ok items
  | _ => Throw TypeError
  end.

End JS.
Import JS.

(** ** Records *)

Module Artwork.
(** [type Artwork]; the cast [as Artwork[]] is unchecked, so a field
    holds whatever value the response had. *)
Record t := mk {
  id : value;
  title : value;
  place_of_origin : value;
  artist_display : value;
  inscriptions : value;
  date_start : value;
  date_end : value
}.
End Artwork.
Abbreviation Artwork := Artwork.t.

Module Entry.
(** [Pick<Artwork, 'id' | 'title' | 'artist_display'>] *)
Record t := mk {
  id : value;
  title : value;
  artist_display : value
}.
End Entry.
Abbreviation Entry := Entry.t.

(** The identifier of a record as a Map key. *)
Definition ident (r : Artwork) : key := key_of (Artwork.id r).

(** [{ id: row.id, title: row.title, artist_display: row.artist_display }] *)
Definition entry_of (row : Artwork) : Entry :=
  Entry.mk (Artwork.id row) (Artwork.title row) (Artwork.artist_display row).

(** ** Component state *)

Definition pageSize : Z := 10.

Record State := mkState {
  rows : list Artwork;
  loading : bool;
  totalRecords : value;
  currentPage : Z;
  selectedMap : gmap key Entry;
  pageSelection : list Artwork
}.

(** The state of the first render. *)
Definition initial : State :=
  mkState [] false (VNum 0) 1 ∅ [].

Definition setRows (x : list Artwork) (s : State) : State :=
  mkState x (loading s) (totalRecords s) (currentPage s) (selectedMap s) (pageSelection s).
Definition setLoading (x : bool) (s : State) : State :=
  mkState (rows s) x (totalRecords s) (currentPage s) (selectedMap s) (pageSelection s).
Definition setTotalRecords (x : value) (s : State) : State :=
  mkState (rows s) (loading s) x (currentPage s) (selectedMap s) (pageSelection s).
Definition setCurrentPage (x : Z) (s : State) : State :=
  mkState (rows s) (loading s) (totalRecords s) x (selectedMap s) (pageSelection s).
Definition setSelectedMap (f : gmap key Entry → gmap key Entry) (s : State) : State :=
  mkState (rows s) (loading s) (totalRecords s) (currentPage s) (f (selectedMap s)) (pageSelection s).
Definition setPageSelection (f : list Artwork → list Artwork) (s : State) : State :=
  mkState (rows s) (loading s) (totalRecords s) (currentPage s) (selectedMap s) (f (pageSelection s)).

(** ** Selection handlers *)

(** [selectedMap.has(k)] *)
Definition has (m : gmap key Entry) (k : key) : bool :=
  bool_decide (is_Some (m !! k)).

(** [rows.forEach(r => copy.set(r.id, {...}))] *)
Definition set_all (l : list Artwork) (copy : gmap key Entry) : gmap key Entry :=
  foldl (λ m row, <[ident row := entry_of row]> m) copy l.

(** [rows.forEach(r => copy.delete(r.id))] *)
Definition delete_all (l : list Artwork) (copy : gmap key Entry) : gmap key Entry :=
  foldl (λ m row, delete (ident row) m) copy l.

(** [selected.find(s => s.id === row.id)] *)
Definition find_same (selected : list Artwork) (row : Artwork) : option Artwork :=
  find (λ s, bool_decide (ident s = ident row)) selected.

(** [rows.forEach(row => { if (!selected.find(...)) copy.delete(row.id) })] *)
Definition delete_unchecked (selected l : list Artwork) (copy : gmap key Entry)
  : gmap key Entry :=
  foldl (λ m row, if find_same selected row is Some _ then m else delete (ident row) m) copy l.

Definition onSelectionChange (selected : list Artwork) (s : State) : State :=
  let s1 := setPageSelection (λ _, selected) s in
  setSelectedMap (λ prev,
    let copy := prev in
    let copy := set_all selected copy in
    delete_unchecked selected (rows s) copy) s1.

Definition selectAllOnPage (s : State) : State :=
  let s1 := setSelectedMap (λ prev, set_all (rows s) prev) s in
  setPageSelection (λ _, rows s) s1.

Definition clearSelectionOnPage (s : State) : State :=
  let s1 := setSelectedMap (λ prev, delete_all (rows s) prev) s in
  setPageSelection (λ _, []) s1.

Definition removeFromSelection (id : value) (s : State) : State :=
  let s1 := setSelectedMap (λ prev, delete (key_of id) prev) s in
  setPageSelection (λ prev, filter (λ r, ident r ≠ key_of id) prev) s1.

(** [Array.from(selectedMap.values())], the summary panel's items (in
    key order here, in insertion order in JavaScript). *)
Definition read_all (m : gmap key Entry) : list Entry :=
  (map_to_list m).*2.

(** ** The page loader *)

#[global] Instance result_ret : MRet result := λ A a, Ok a.
#[global] Instance result_bind : MBind result := λ A B f r,
  match r with
  | Ok a => f a
  | Throw e => Throw e
  end.

(** The callback of [(json.data || []).map(...)]. *)
Definition normalize (d : value) : result Artwork :=
  id ← get d "id";
  title ← get d "title";
  place_of_origin ← get d "place_of_origin";
  artist_display ← get d "artist_display";
  inscriptions ← get d "inscriptions";
  date_start ← get d "date_start";
  date_end ← get d "date_end";
  mret (Artwork.mk id title
          (coalesce place_of_origin VNull)
          (coalesce artist_display VNull)
          (coalesce inscriptions VNull)
          (coalesce date_start VNull)
          (coalesce date_end VNull)).

(** How the two awaited promises of [fetchPage] settle. *)
Inductive outcome :=
  | NetworkFailure            (* [fetch] rejects *)
  | NotJson                   (* [res.json()] rejects *)
  | Body (json : value).      (* [res.json()] resolves *)

(** What lies outside the component: the console, the requests sent, and
    the calls of [fetchPage] suspended at an [await], each with the
    [selectedMap] of the render that created its closure. *)
Record World := mkWorld {
  ui : State;
  console : list (string * exn);
  network : list string;
  inflight : list (gmap key Entry)
}.

(** Computations of an [async] body: state passing with exceptions. *)
Definition M (A : Type) : Type := World → result A * World.

#[global] Instance M_ret : MRet M := λ A a w, (Ok a, w).
#[global] Instance M_bind : MBind M := λ A B f m w,
  match m w with
  | (Ok a, w') => f a w'
  | (Throw e, w') => (Throw e, w')
  end.

Definition lift {A} (r : result A) : M A := λ w, (r, w).

Definition update (f : State → State) : M unit := λ w,
  (Ok (), mkWorld (f (ui w)) (console w) (network w) (inflight w)).

Definition console_error (label : string) (err : exn) : M unit := λ w,
  (Ok (), mkWorld (ui w) (console w ++ [(label, err)]) (network w) (inflight w)).

Definition try_catch (body : M unit) (handler : exn → M unit) : M unit := λ w,
  match body w with
  | (Throw e, w') => handler e w'
  | r => r
  end.

Definition try_finally (body : M unit) (finalizer : M unit) : M unit := λ w,
  let (r, w') := body w in
  match finalizer w' with
  | (Ok _, w'') => (r, w'')
  | (Throw e, w'') => (Throw e, w'')
  end.

(** What the two awaits hand back: the parsed body, or the rejection. *)
Definition settled (o : outcome) : result value :=
  match o with
  | NetworkFailure => Throw FetchRejected
  | NotJson => Throw JsonRejected
  | Body json => Ok json
  end.

(** [await fetch(...)] followed by [await res.json()]. *)
Definition await (o : outcome) : M value := lift (settled o).

Definition url (page : Z) : string :=
  "https://api.artic.edu/api/v1/artworks?page=" +:+ pretty page +:+
  "&limit=" +:+ pretty pageSize +:+
  "&fields=id,title,place_of_origin,artist_display,inscriptions,date_start,date_end".

(** [fetchPage] up to its first [await]: the loading flag is raised, the
    request leaves, and the call is suspended holding [selectedMap]. *)
Definition fetchPage_issue (page : Z) (w : World) : World :=
  let s := setLoading true (ui w) in
  mkWorld s (console w) (network w ++ [url page]) (inflight w ++ [selectedMap (ui w)]).

(** [fetchPage] from its first [await] on; [closure_selectedMap] is the
    [selectedMap] the suspended call holds. *)
Definition fetchPage_resume (closure_selectedMap : gmap key Entry) (o : outcome)
  : M unit :=
  try_finally
    (try_catch
       (json ← await o;
        data ← lift (get json "data");
        items ← lift (if truthy data then array_items data else Ok []);
        artworks ← lift (mapM normalize items);
        update (setRows artworks);;
        pagination ← lift (get json "pagination");
        total ← lift (get_opt pagination "total");
        update (setTotalRecords (coalesce total (VNum 0)));;
        let restored := filter (λ r, has closure_selectedMap (ident r)) artworks in
        update (setPageSelection (λ _, restored)))
       (λ err, console_error "fetch error" err))
    (update (setLoading false)).

(** [onPageChange], up to the [await] inside [fetchPage]. *)
Definition onPageChange (e_page : Z) (w : World) : World :=
  let newPage := e_page + 1 in
  let w1 := mkWorld (setCurrentPage newPage (ui w)) (console w) (network w) (inflight w) in
  fetchPage_issue newPage w1.

(** ** Events *)

Inductive event :=
  | PageChange (e_page : Z)
  | Settle (i : nat) (o : outcome)
  | SelectionChange (e_value : list Artwork)
  | SelectAllClick
  | ClearClick
  | Deselect (id : value).

Definition handle (f : State → State) (w : World) : World :=
  mkWorld (f (ui w)) (console w) (network w) (inflight w).

(** One turn of the event loop.  [Settle i o] resumes the [i]-th
    suspended fetch; there is nothing to resume when no such call exists. *)
Definition step (w : World) (ev : event) : World :=
  match ev with
  | PageChange e_page => onPageChange e_page w
  | Settle i o =>
      match inflight w !! i with
      | Some closure_selectedMap =>
          snd (fetchPage_resume closure_selectedMap o
                 (mkWorld (ui w) (console w) (network w) (delete i (inflight w))))
      | None => w
      end
  | SelectionChange e_value => handle (onSelectionChange e_value) w
  | SelectAllClick => handle selectAllOnPage w
  | ClearClick => handle clearSelectionOnPage w
  | Deselect id => handle (removeFromSelection id) w
  end.

Definition run (w : World) (evs : list event) : World := foldl step w evs.

(** After the first render: [useEffect(() => { fetchPage(1) }, [])]. *)
Definition mounted : World :=
  fetchPage_issue 1 (mkWorld initial [] [] []).

(** A fetch that settles before any other event. *)
Definition fetchPage (page : Z) (o : outcome) (w : World) : World :=
  step (fetchPage_issue page w) (Settle (length (inflight w)) o).

(** ** The page loader, summarised *)

(** The records a parsed body yields, when reading it does not throw. *)
Definition decode (json : value) : result (list Artwork) :=
  data ← get json "data";
  items ← (if truthy data then array_items data else Ok []);
  mapM normalize items.

(** [json.pagination?.total ?? 0] *)
Definition total_of (json : value) : value :=
  match get json "pagination" with
  | Ok pagination =>
      match get_opt pagination "total" with
      | Ok total => coalesce total (VNum 0)
      | Throw _ => VNum 0
      end
  | Throw _ => VNum 0
  end.

(** The records and the total received, or the exception caught. *)
Definition received (o : outcome) : result (list Artwork * value) :=
  json ← settled o;
  artworks ← decode json;
  mret (artworks, total_of json).

(** ** Marks on identifiers *)

(** Following the specification: what one event says about identifier [k]
    while [visible] is on screen.  [Some true] marks it selected,
    [Some false] marks it deselected, [None] leaves it alone. *)
Definition marks (visible : list Artwork) (ev : event) (k : key) : option bool :=
  match ev with
  | SelectionChange checked =>
      if decide (k ∈ ident <$> checked) then Some true
      else if decide (k ∈ ident <$> visible) then Some false
      else None
  | SelectAllClick =>
      if decide (k ∈ ident <$> visible) then Some true else None
  | ClearClick =>
      if decide (k ∈ ident <$> visible) then Some false else None
  | Deselect id =>
      if decide (k = key_of id) then Some false else None
  | PageChange _ | Settle _ _ => None
  end.

(** Following the specification: the mark left on [k] by the last event of
    [evs] that affected it, [earlier] when none did.  The visible list at
    each event is the one the component shows at that moment. *)
Fixpoint last_mark (w : World) (evs : list event) (k : key) (earlier : option bool)
  : option bool :=
  match evs with
  | [] => earlier
  | ev :: evs' =>
      last_mark (step w ev) evs' k
        (match marks (rows (ui w)) ev k with
         | Some mark => Some mark
         | None => earlier
         end)
  end.

(** ** The checked subset *)

(** The page state's derived field: the checked subset is the part of the
    visible list whose identifiers the store holds. *)
Definition derived (s : State) : Prop :=
  ∀ r, r ∈ pageSelection s ↔ r ∈ rows s ∧ is_Some (selectedMap s !! ident r).

(** ** Consumed fields *)

(** The fields requested from the API and read from each record. *)
Definition consumed : list string :=
  ["id"; "title"; "place_of_origin"; "artist_display"; "inscriptions";
   "date_start"; "date_end"].

(** [a[name]] on a normalized record. *)
Definition field (a : Artwork) (name : string) : value :=
  if String.eqb name "id" then Artwork.id a
  else if String.eqb name "title" then Artwork.title a
  else if String.eqb name "place_of_origin" then Artwork.place_of_origin a
  else if String.eqb name "artist_display" then Artwork.artist_display a
  else if String.eqb name "inscriptions" then Artwork.inscriptions a
  else if String.eqb name "date_start" then Artwork.date_start a
  else if String.eqb name "date_end" then Artwork.date_end a
  else VUndefined.

(** ** What is rendered *)

(** One [<li>] of the summary panel. *)
Record PanelItem := mkPanelItem {
  item_id : value;      (* [key={it.id}], and what its Deselect button removes *)
  item_title : value;   (* [it.title ?? '(no title)'] *)
  item_meta : value     (* [it.artist_display ?? 'Unknown artist'] *)
}.

Inductive PanelBody :=
  | NoRowsSelected                      (* ["No rows selected"] *)
  | Listing (items : list PanelItem).   (* the [<ul>] *)

(** [selectionPanel]: the heading [Selected (n)] and what stands below it. *)
Record Panel := mkPanel {
  selected_count : nat;
  panel_body : PanelBody
}.

Definition render_item (it : Entry) : PanelItem :=
  mkPanelItem (Entry.id it)
    (coalesce (Entry.title it) (VStr "(no title)"))
    (coalesce (Entry.artist_display it) (VStr "Unknown artist")).

Definition selectionPanel (m : gmap key Entry) : Panel :=
  let items := read_all m in
  mkPanel (length items)
    (if (length items =? 0)%nat then NoRowsSelected
     else Listing (render_item <$> items)).

(** [onClick={() => removeFromSelection(it.id)}] *)
Definition deselect_click (item : PanelItem) : State → State :=
  removeFromSelection (item_id item).

(** The paginator's [first={(currentPage - 1) * pageSize}]. *)
Definition paginator_first (s : State) : Z :=
  (currentPage s - 1) * pageSize.

(** ** Sample data *)

Module Sample.
Definition artwork (n : Z) (t : string) : Artwork :=
  Artwork.mk (VNum n) (VStr t) VNull VNull VNull VNull VNull.

Definition page1 : list Artwork := [artwork 1 "a"; artwork 2 "b"; artwork 3 "c"].
Definition page2 : list Artwork := [artwork 11 "k"; artwork 12 "l"].

(** Page 1 on screen, with record 1 and a record of another page selected. *)
Definition browsing : State :=
  mkState page1 false (VNum 5) 1
    (<[KNum 1 := entry_of (artwork 1 "a")]> {[KNum 12 := entry_of (artwork 12 "l")]})
    [artwork 1 "a"].

(** The user unchecks record 1 and checks record 2. *)
Definition toggled : list Artwork := [artwork 2 "b"].

Definition world : World := mkWorld browsing [] [] [].

(** A record as the API sends it, and the body of page 2. *)
Definition raw (ref : positive) (n : Z) (t : string) : value :=
  VObj ref [("id", VNum n); ("title", VStr t)].

Definition body (ref : positive) (total : Z) (data : list value) : value :=
  VObj ref [("pagination", VObj (ref + 1) [("total", VNum total)]);
            ("data", VArr (ref + 2) data)].

Definition body1 : value := body 10 5 [raw 13 1 "a"; raw 14 2 "b"; raw 15 3 "c"].
Definition body2 : value := body 20 5 [raw 23 11 "k"; raw 24 12 "l"].

(** A page on which two records bear identifier 1. *)
Definition twins : list Artwork := [artwork 1 "a"; artwork 1 "dup"; artwork 2 "b"].
Definition body_twins : value :=
  body 30 5 [raw 33 1 "a"; raw 34 1 "dup"; raw 35 2 "b"].

(** A full page of ten records with identifiers [from], ..., [from + 9]. *)
Definition full_page (ref : positive) (from : Z) : value :=
  body ref 20 ((λ n, raw (Z.to_pos (100 + n)) n "untitled") <$> seqZ from 10).
End Sample.

(** * Properties *)

(** ** The three loops over a record list *)

Section loops.
Implicit Types (m : gmap key Entry) (l selected : list Artwork) (k : key).

Lemma set_all_snoc l row m :
  set_all (l ++ [row]) m = <[ident row := entry_of row]> (set_all l m).
Proof. unfold set_all. by rewrite foldl_app. Qed.

Lemma delete_all_snoc l row m :
  delete_all (l ++ [row]) m = delete (ident row) (delete_all l m).
Proof. unfold delete_all. by rewrite foldl_app. Qed.

Lemma delete_unchecked_snoc selected l row m :
  delete_unchecked selected (l ++ [row]) m =
  if find_same selected row is Some _
  then delete_unchecked selected l m
  else delete (ident row) (delete_unchecked selected l m).
Proof. unfold delete_unchecked. by rewrite foldl_app. Qed.

(** A key outside the list is left alone by [set_all]. *)
Lemma set_all_other l m k :
  k ∉ ident <$> l → set_all l m !! k = m !! k.
Proof.
  induction l as [|row l IH] using rev_ind; [done|].
  rewrite fmap_app, not_elem_of_app, set_all_snoc. simpl.
  intros [Hl Hrow%not_elem_of_cons]. destruct Hrow as [Hrow _].
  rewrite lookup_insert_ne by done. auto.
Qed.

(** A key of the list holds the entry of one of the records bearing it. *)
Lemma set_all_member l m k :
  k ∈ ident <$> l →
  ∃ row, row ∈ l ∧ ident row = k ∧ set_all l m !! k = Some (entry_of row).
Proof.
  induction l as [|row l IH] using rev_ind; [by intros ?%elem_of_nil|].
  rewrite fmap_app, set_all_snoc. simpl. intros Hk.
  destruct (decide (ident row = k)) as [<-|Hne].
  - exists row. rewrite lookup_insert_eq. set_solver.
  - rewrite lookup_insert_ne by done.
    destruct IH as (row' & ? & ? & ?); [set_solver|].
    exists row'. set_solver.
Qed.

Lemma set_all_is_Some l m k :
  is_Some (set_all l m !! k) ↔ k ∈ ident <$> l ∨ is_Some (m !! k).
Proof.
  destruct (decide (k ∈ ident <$> l)) as [Hin|Hout].
  - destruct (set_all_member l m k Hin) as (row & _ & _ & ->). naive_solver.
  - rewrite set_all_other by done. naive_solver.
Qed.

Lemma delete_all_lookup l m k :
  delete_all l m !! k = if decide (k ∈ ident <$> l) then None else m !! k.
Proof.
  induction l as [|row l IH] using rev_ind.
  - case_decide; [set_solver | done].
  - rewrite delete_all_snoc, lookup_delete, IH, fmap_app. simpl.
    repeat case_decide; set_solver.
Qed.

(** [find] answers exactly when some checked record bears the row's key. *)
Lemma find_same_None selected row :
  find_same selected row = None ↔ ident row ∉ ident <$> selected.
Proof.
  unfold find_same. induction selected as [|s selected IH]; simpl.
  - set_solver.
  - case_bool_decide; [set_solver|]. rewrite IH. set_solver.
Qed.

Lemma delete_unchecked_lookup selected l m k :
  delete_unchecked selected l m !! k =
  if decide (k ∈ ident <$> l ∧ k ∉ ident <$> selected) then None else m !! k.
Proof.
  induction l as [|row l IH] using rev_ind.
  - case_decide; [set_solver | done].
  - rewrite delete_unchecked_snoc, fmap_app. simpl.
    destruct (find_same selected row) as [s|] eqn:Hfind.
    + assert (ident row ∈ ident <$> selected) as Hin.
      { destruct (decide (ident row ∈ ident <$> selected)) as [|Hout]; [done|].
        apply find_same_None in Hout. congruence. }
      rewrite IH. repeat case_decide; set_solver.
    + apply find_same_None in Hfind.
      rewrite lookup_delete, IH. repeat case_decide; set_solver.
Qed.

(** Records of a list with pairwise distinct keys are told apart by
    their keys. *)
Lemma ident_inj_on l r1 r2 :
  NoDup (ident <$> l) → r1 ∈ l → r2 ∈ l → ident r1 = ident r2 → r1 = r2.
Proof.
  induction l as [|row l IH]; [by intros _ ?%elem_of_nil|].
  rewrite fmap_cons, NoDup_cons. intros [Hrow Hl] H1 H2 Heq.
  apply elem_of_cons in H1 as [->|H1]; apply elem_of_cons in H2 as [->|H2].
  - done.
  - destruct Hrow. rewrite Heq. by apply list_elem_of_fmap_2.
  - destruct Hrow. rewrite <- Heq. by apply list_elem_of_fmap_2.
  - by apply IH.
Qed.
End loops.

(** The store after each handler, by key. *)
Lemma onSelectionChange_lookup selected s k :
  selectedMap (onSelectionChange selected s) !! k =
  if decide (k ∈ ident <$> rows s ∧ k ∉ ident <$> selected) then None
  else set_all selected (selectedMap s) !! k.
Proof. apply delete_unchecked_lookup. Qed.

Lemma selectAllOnPage_lookup s k :
  selectedMap (selectAllOnPage s) !! k = set_all (rows s) (selectedMap s) !! k.
Proof. done. Qed.

Lemma clearSelectionOnPage_lookup s k :
  selectedMap (clearSelectionOnPage s) !! k =
  if decide (k ∈ ident <$> rows s) then None else selectedMap s !! k.
Proof. apply delete_all_lookup. Qed.

Lemma removeFromSelection_lookup id s k :
  selectedMap (removeFromSelection id s) !! k =
  if decide (key_of id = k) then None else selectedMap s !! k.
Proof. apply lookup_delete. Qed.

(** The identifiers of the sample page are pairwise distinct. *)
Lemma page1_NoDup : NoDup (ident <$> Sample.page1).
Proof. apply (bool_decide_unpack _). by vm_compute. Defined.

(** ** The selection store *)

(** C1.  Toggle page selection, for a visible list and a checked subset
    of it: every identifier that is not on the page maps to what it mapped
    to before, and the identifiers present afterwards are the checked ones
    together with the earlier ones that are not on the page; when the
    identifiers of the visible records are pairwise distinct, every checked
    record's identifier maps to that record's entry and every unchecked
    visible record's identifier is absent. *)
Theorem onSelectionChange_store (s : State) (selected : list Artwork) :
  selected ⊆ rows s →
  (NoDup (ident <$> rows s) →
   (∀ r, r ∈ selected →
         selectedMap (onSelectionChange selected s) !! ident r = Some (entry_of r)) ∧
   (∀ r, r ∈ rows s → r ∉ selected →
         selectedMap (onSelectionChange selected s) !! ident r = None)) ∧
  (∀ k, k ∉ ident <$> rows s →
        selectedMap (onSelectionChange selected s) !! k = selectedMap s !! k) ∧
  dom (selectedMap (onSelectionChange selected s)) =
    list_to_set (ident <$> selected) ∪
    (dom (selectedMap s) ∖ list_to_set (ident <$> rows s)).
Proof.
  intros Hsub. split; [|split].
  - intros Hdistinct. split.
    + intros r Hr. rewrite onSelectionChange_lookup.
      assert (ident r ∈ ident <$> selected) as Hin by by apply list_elem_of_fmap_2.
      rewrite decide_False by naive_solver.
      destruct (set_all_member selected (selectedMap s) _ Hin)
        as (r' & Hr' & Heq & ->).
      do 2 f_equal. eapply ident_inj_on; eauto.
    + intros r Hr Hunchecked. rewrite onSelectionChange_lookup.
      rewrite decide_True; [done|]. split; [by apply list_elem_of_fmap_2|].
      intros (r' & Heq & Hr')%list_elem_of_fmap.
      apply Hunchecked. by rewrite (ident_inj_on (rows s) r r') by auto.
  - intros k Hk. rewrite onSelectionChange_lookup.
    rewrite decide_False by naive_solver.
    apply set_all_other. intros (r & -> & Hr)%list_elem_of_fmap.
    apply Hk, list_elem_of_fmap_2. auto.
  - apply set_eq. intros k.
    rewrite elem_of_dom, onSelectionChange_lookup, elem_of_union,
      elem_of_difference, !elem_of_list_to_set, elem_of_dom.
    case_decide as Hdel.
    + split; [by intros ?%is_Some_None | naive_solver].
    + rewrite set_all_is_Some. split; [|naive_solver].
      intros [?|?]; [by left|].
      destruct (decide (k ∈ ident <$> selected)); naive_solver.
Qed.

Lemma onSelectionChange_store_witness :
  Sample.toggled ⊆ rows Sample.browsing ∧
  NoDup (ident <$> rows Sample.browsing) ∧
  selectedMap (onSelectionChange Sample.toggled Sample.browsing) !! KNum 2
    = Some (entry_of (Sample.artwork 2 "b")) ∧
  selectedMap (onSelectionChange Sample.toggled Sample.browsing) !! KNum 1 = None ∧
  selectedMap (onSelectionChange Sample.toggled Sample.browsing) !! KNum 12
    = selectedMap Sample.browsing !! KNum 12.
Proof.
  assert (Sample.toggled ⊆ rows Sample.browsing) as Hsub by set_solver.
  destruct (onSelectionChange_store Sample.browsing Sample.toggled Hsub)
    as (Hdistinct & Hother & _).
  destruct (Hdistinct page1_NoDup) as [Hchecked Hunchecked].
  split; [exact Hsub|]. split; [exact page1_NoDup|]. split; [|split].
  - apply (Hchecked (Sample.artwork 2 "b")). set_solver.
  - apply (Hunchecked (Sample.artwork 1 "a")); set_solver.
  - apply Hother. set_solver.
Defined.

(** Counterexample to the specification's wording of C1: a response
    carries two records with identifier 1, the user checks the first of
    them only, and the identifier of the second, unchecked and visible,
    is still in the store. *)
Lemma onSelectionChange_twins :
  rows (ui (run mounted [Settle 0 (Body Sample.body_twins)])) = Sample.twins ∧
  [Sample.artwork 1 "a"] ⊆ Sample.twins ∧
  Sample.artwork 1 "dup" ∈ Sample.twins ∧
  Sample.artwork 1 "dup" ∉ [Sample.artwork 1 "a"] ∧
  selectedMap
    (onSelectionChange [Sample.artwork 1 "a"]
       (ui (run mounted [Settle 0 (Body Sample.body_twins)])))
    !! ident (Sample.artwork 1 "dup")
  = Some (entry_of (Sample.artwork 1 "a")).
Proof.
  split; [reflexivity|]. unfold Sample.twins.
  split; [set_solver|]. split; [set_solver|]. split; [|reflexivity].
  intros Heq%list_elem_of_singleton. discriminate Heq.
Qed.

(** C3.  Select all on page followed at once by clear page selection
    leaves no entry for any identifier of the visible page and leaves every
    other identifier as it was; so the store agrees with the earlier one on
    the page's identifiers exactly when the earlier one held none of them. *)
Theorem selectAll_then_clear (s : State) :
  let after := selectedMap (clearSelectionOnPage (selectAllOnPage s)) in
  (∀ r, r ∈ rows s → after !! ident r = None) ∧
  (∀ k, k ∉ ident <$> rows s → after !! k = selectedMap s !! k) ∧
  ((∀ r, r ∈ rows s → after !! ident r = selectedMap s !! ident r) ↔
   (∀ r, r ∈ rows s → selectedMap s !! ident r = None)).
Proof.
  intros after.
  assert (∀ k, after !! k =
               if decide (k ∈ ident <$> rows s) then None else selectedMap s !! k)
    as Hafter.
  { intros k. subst after. rewrite clearSelectionOnPage_lookup.
    change (rows (selectAllOnPage s)) with (rows s).
    case_decide; [done|]. rewrite selectAllOnPage_lookup. by apply set_all_other. }
  assert (∀ r, r ∈ rows s → after !! ident r = None) as Hpage.
  { intros r Hr. rewrite Hafter, decide_True; [done|]. by apply list_elem_of_fmap_2. }
  split; [done|]. split.
  - intros k Hk. by rewrite Hafter, decide_False.
  - split; intros H r Hr.
    + by rewrite <- H, Hpage.
    + by rewrite H, Hpage.
Qed.

(** Counterexample to the specification's wording of C3: with record 1 of
    the visible page selected beforehand, select all followed by clear
    leaves record 1 unselected. *)
Lemma selectAll_then_clear_forgets :
  Sample.artwork 1 "a" ∈ rows Sample.browsing ∧
  selectedMap (clearSelectionOnPage (selectAllOnPage Sample.browsing))
    !! ident (Sample.artwork 1 "a")
  ≠ selectedMap Sample.browsing !! ident (Sample.artwork 1 "a").
Proof. split; [set_solver | by vm_compute]. Qed.

Lemma selectAll_then_clear_witness :
  selectedMap (clearSelectionOnPage (selectAllOnPage Sample.browsing)) !! KNum 2 = None ∧
  selectedMap (clearSelectionOnPage (selectAllOnPage Sample.browsing)) !! KNum 12
    = selectedMap Sample.browsing !! KNum 12.
Proof.
  destruct (selectAll_then_clear Sample.browsing) as (Hpage & Hother & _).
  split.
  - apply (Hpage (Sample.artwork 2 "b")). set_solver.
  - apply Hother. set_solver.
Defined.

(** C7.  Frame: select all visible and clear visible selection leave the
    entry of every identifier outside the visible list as it was, remove one
    leaves the entry of every other identifier as it was, and read all
    yields every entry of the store. *)
Theorem handlers_frame :
  (∀ s k, k ∉ ident <$> rows s →
          selectedMap (selectAllOnPage s) !! k = selectedMap s !! k) ∧
  (∀ s k, k ∉ ident <$> rows s →
          selectedMap (clearSelectionOnPage s) !! k = selectedMap s !! k) ∧
  (∀ s id k, k ≠ key_of id →
             selectedMap (removeFromSelection id s) !! k = selectedMap s !! k) ∧
  (∀ (m : gmap key Entry) e, e ∈ read_all m ↔ ∃ k, m !! k = Some e).
Proof.
  repeat split.
  - intros s k Hk. rewrite selectAllOnPage_lookup. by apply set_all_other.
  - intros s k Hk. by rewrite clearSelectionOnPage_lookup, decide_False.
  - intros s id k Hk. by rewrite removeFromSelection_lookup, decide_False.
  - unfold read_all. intros ([k e'] & -> & Hin%elem_of_map_to_list)%list_elem_of_fmap.
    by exists k.
  - unfold read_all. intros [k Hk]. apply list_elem_of_fmap.
    exists (k, e). split; [done|]. by apply elem_of_map_to_list.
Qed.

Lemma handlers_frame_witness :
  selectedMap (selectAllOnPage Sample.browsing) !! KNum 12
    = selectedMap Sample.browsing !! KNum 12 ∧
  selectedMap (clearSelectionOnPage Sample.browsing) !! KNum 12
    = selectedMap Sample.browsing !! KNum 12 ∧
  selectedMap (removeFromSelection (VNum 1) Sample.browsing) !! KNum 12
    = selectedMap Sample.browsing !! KNum 12 ∧
  entry_of (Sample.artwork 12 "l") ∈ read_all (selectedMap Sample.browsing).
Proof.
  destruct handlers_frame as (Hall & Hclear & Hremove & Hread).
  split; [|split; [|split]].
  - apply Hall. set_solver.
  - apply Hclear. set_solver.
  - by apply Hremove.
  - apply Hread. by exists (KNum 12).
Defined.

(** ** What a resumed fetch does *)

Lemma get_opt_Ok v k : ∃ x, get_opt v k = Ok x.
Proof. destruct v; simpl; eauto. Qed.

Lemma get_Ok_any json k x k' : get json k = Ok x → ∃ x', get json k' = Ok x'.
Proof. destruct json; simpl; intros; simplify_eq; eauto. Qed.

(** A resumed fetch that received records: the success path. *)
Lemma fetchPage_resume_received closure_selectedMap o w artworks total :
  received o = Ok (artworks, total) →
  fetchPage_resume closure_selectedMap o w =
  (Ok (), mkWorld
     (mkState artworks false total (currentPage (ui w)) (selectedMap (ui w))
        (filter (λ r, has closure_selectedMap (ident r)) artworks))
     (console w) (network w) (inflight w)).
Proof.
  unfold received, decode, total_of, fetchPage_resume, try_finally, try_catch,
    await, lift, mbind, M_bind, result_bind, mret, result_ret.
  destruct (settled o) as [json|]; [|done].
  destruct (get json "data") as [data|] eqn:Hdata; [|done].
  destruct (get_Ok_any json "data" data "pagination" Hdata) as [pagination ->].
  destruct (get_opt_Ok pagination "total") as [t ->].
  destruct (if truthy data then array_items data else Ok []) as [items|]; [|done].
  destruct (mapM normalize items) as [l|]; [|done].
  by intros [= <- <-].
Qed.

(** A resumed fetch that caught an exception: the failure path. *)
Lemma fetchPage_resume_caught closure_selectedMap o w e :
  received o = Throw e →
  fetchPage_resume closure_selectedMap o w =
  (Ok (), mkWorld (setLoading false (ui w))
            (console w ++ [("fetch error", e)]) (network w) (inflight w)).
Proof.
  unfold received, decode, fetchPage_resume, try_finally, try_catch,
    await, lift, mbind, M_bind, result_bind, mret, result_ret.
  destruct (settled o) as [json|]; [|by intros [= ->]].
  destruct (get json "data") as [data|] eqn:Hdata; [|by intros [= ->]].
  destruct (if truthy data then array_items data else Ok []) as [items|];
    [|by intros [= ->]].
  destruct (mapM normalize items) as [l|]; [done|]. by intros [= ->].
Qed.

(** Whatever the outcome, a resumed fetch leaves the store, the page
    number, the requests sent and the suspended calls alone. *)
Lemma fetchPage_resume_frame closure_selectedMap o w :
  let w' := snd (fetchPage_resume closure_selectedMap o w) in
  selectedMap (ui w') = selectedMap (ui w) ∧
  currentPage (ui w') = currentPage (ui w) ∧
  loading (ui w') = false ∧
  network w' = network w ∧
  inflight w' = inflight w.
Proof.
  destruct (received o) as [[artworks total]|e] eqn:Hreceived.
  - by rewrite (fetchPage_resume_received _ _ _ _ _ Hreceived).
  - by rewrite (fetchPage_resume_caught _ _ _ _ Hreceived).
Qed.

(** ** The selection invariant *)

Lemma step_marks w ev k :
  is_Some (selectedMap (ui (step w ev)) !! k) ↔
  match marks (rows (ui w)) ev k with
  | Some mark => mark = true
  | None => is_Some (selectedMap (ui w) !! k)
  end.
Proof.
  destruct ev as [e_page|i o|checked| | |id]; unfold step, handle, marks; cbn [ui].
  - done.
  - destruct (inflight w !! i) as [closure_selectedMap|]; [|done].
    by destruct (fetchPage_resume_frame closure_selectedMap o
                   (mkWorld (ui w) (console w) (network w) (delete i (inflight w))))
      as [-> _].
  - rewrite onSelectionChange_lookup.
    repeat case_decide; try rewrite set_all_is_Some;
      naive_solver eauto using is_Some_None.
  - rewrite selectAllOnPage_lookup, set_all_is_Some.
    case_decide; [naive_solver|]. naive_solver.
  - rewrite clearSelectionOnPage_lookup.
    case_decide; [|done]. split; [by intros ?%is_Some_None | done].
  - rewrite removeFromSelection_lookup.
    repeat case_decide; try done; try congruence.
Qed.

Lemma run_last_mark evs : ∀ w k earlier,
  (is_Some (selectedMap (ui w) !! k) ↔ earlier = Some true) →
  (is_Some (selectedMap (ui (run w evs)) !! k) ↔ last_mark w evs k earlier = Some true).
Proof.
  induction evs as [|ev evs IH]; intros w k earlier Hw; [done|].
  simpl. apply IH. rewrite step_marks.
  destruct (marks (rows (ui w)) ev k) as [mark|]; [|done].
  split; [by intros -> | by intros [= ->]].
Qed.

(** C2.  After any sequence of events from mount, an identifier is in the
    store exactly when the last event that affected it marked it selected. *)
Theorem selection_invariant (evs : list event) (k : key) :
  is_Some (selectedMap (ui (run mounted evs)) !! k) ↔
  last_mark mounted evs k None = Some true.
Proof.
  apply run_last_mark. split; [|done].
  unfold mounted. simpl. rewrite lookup_empty. by intros ?%is_Some_None.
Qed.

(** ** Fetching a page *)

Lemma fetchPage_eq page o w :
  fetchPage page o w =
  snd (fetchPage_resume (selectedMap (ui w)) o
         (mkWorld (setLoading true (ui w)) (console w)
                  (network w ++ [url page]) (inflight w))).
Proof.
  unfold fetchPage, step, fetchPage_issue. cbn [ui console network inflight].
  rewrite list_lookup_middle by done.
  by rewrite delete_middle, app_nil_r.
Qed.

(** The suspended fetch [i] settles with a rejection. *)
Lemma settle_rejected w i closure_selectedMap o err :
  inflight w !! i = Some closure_selectedMap →
  settled o = Throw err →
  step w (Settle i o) =
  mkWorld (setLoading false (ui w)) (console w ++ [("fetch error", err)])
          (network w) (delete i (inflight w)).
Proof.
  intros Hi Ho. unfold step. rewrite Hi.
  rewrite (fetchPage_resume_caught _ _ _ err); [done|].
  unfold received. by rewrite Ho.
Qed.

(** C8.  A fetch that fails with a network or parse error leaves the
    visible records, the total, the store and the checked subset as they
    were, ends with the loading flag cleared, and logs the error; the
    component state differs from the earlier one in the loading flag at
    most, and the one request sent is the only one. *)
Theorem fetch_failure (w : World) (page : Z) (o : outcome) (err : exn) :
  settled o = Throw err →
  rows (ui (fetchPage page o w)) = rows (ui w) ∧
  totalRecords (ui (fetchPage page o w)) = totalRecords (ui w) ∧
  selectedMap (ui (fetchPage page o w)) = selectedMap (ui w) ∧
  pageSelection (ui (fetchPage page o w)) = pageSelection (ui w) ∧
  loading (ui (fetchPage page o w)) = false ∧
  console (fetchPage page o w) = console w ++ [("fetch error", err)] ∧
  ui (fetchPage page o w) = setLoading false (ui w) ∧
  network (fetchPage page o w) = network w ++ [url page] ∧
  inflight (fetchPage page o w) = inflight w.
Proof.
  intros Ho. rewrite fetchPage_eq.
  rewrite (fetchPage_resume_caught _ _ _ err); [done|].
  unfold received. by rewrite Ho.
Qed.

Lemma fetch_failure_witness :
  settled NetworkFailure = Throw FetchRejected ∧
  rows (ui (fetchPage 3 NetworkFailure Sample.world)) = Sample.page1 ∧
  loading (ui (fetchPage 3 NetworkFailure Sample.world)) = false ∧
  console (fetchPage 3 NetworkFailure Sample.world) = [("fetch error", FetchRejected)].
Proof.
  split; [reflexivity|].
  destruct (fetch_failure Sample.world 3 NetworkFailure FetchRejected eq_refl)
    as (Hrows & _ & _ & _ & Hloading & Hconsole & _).
  split; [exact Hrows|]. split; [exact Hloading | exact Hconsole].
Defined.

(** C9.  A navigation to page N sets the page number to N and then issues
    the fetch; when that fetch fails the page number stays N while the
    visible records and the total are those shown before. *)
Theorem failed_navigation (w : World) (e_page : Z) (o : outcome) (err : exn) :
  settled o = Throw err →
  onPageChange e_page w =
    fetchPage_issue (e_page + 1) (handle (setCurrentPage (e_page + 1)) w) ∧
  currentPage (ui (onPageChange e_page w)) = e_page + 1 ∧
  currentPage (ui (step (onPageChange e_page w) (Settle (length (inflight w)) o)))
    = e_page + 1 ∧
  rows (ui (step (onPageChange e_page w) (Settle (length (inflight w)) o)))
    = rows (ui w) ∧
  totalRecords (ui (step (onPageChange e_page w) (Settle (length (inflight w)) o)))
    = totalRecords (ui w).
Proof.
  intros Ho. split; [done|]. split; [done|].
  rewrite (settle_rejected _ _ (selectedMap (ui w)) o err); [done| |done].
  unfold onPageChange, fetchPage_issue. cbn [ui console network inflight].
  by rewrite list_lookup_middle.
Qed.

Lemma failed_navigation_witness :
  settled NotJson = Throw JsonRejected ∧
  currentPage (ui (step (onPageChange 2 Sample.world) (Settle 0 NotJson))) = 3 ∧
  rows (ui (step (onPageChange 2 Sample.world) (Settle 0 NotJson))) = Sample.page1 ∧
  totalRecords (ui (step (onPageChange 2 Sample.world) (Settle 0 NotJson))) = VNum 5.
Proof.
  split; [reflexivity|].
  destruct (failed_navigation Sample.world 2 NotJson JsonRejected eq_refl)
    as (_ & _ & Hpage & Hrows & Htotal).
  split; [exact Hpage|]. split; [exact Hrows | exact Htotal].
Defined.



(** The suspended fetch [i] settles with records. *)
Lemma settle_received w i closure_selectedMap o artworks total :
  inflight w !! i = Some closure_selectedMap →
  received o = Ok (artworks, total) →
  step w (Settle i o) =
  mkWorld
    (mkState artworks false total (currentPage (ui w)) (selectedMap (ui w))
       (filter (λ r, has closure_selectedMap (ident r)) artworks))
    (console w) (network w) (delete i (inflight w)).
Proof.
  intros Hi Ho. unfold step. rewrite Hi.
  by rewrite (fetchPage_resume_received _ _ _ _ _ Ho).
Qed.

Lemma elem_of_restored (m : gmap key Entry) (l : list Artwork) r :
  r ∈ filter (λ r, has m (ident r)) l ↔ r ∈ l ∧ is_Some (m !! ident r).
Proof.
  rewrite list_elem_of_filter. unfold has. rewrite bool_decide_spec. tauto.
Qed.

(** Every handler keeps the checked subset derived from the store, and so
    does a fetch that settles before any other event. *)
Lemma derived_onSelectionChange s selected :
  NoDup (ident <$> rows s) → selected ⊆ rows s →
  derived (onSelectionChange selected s).
Proof.
  intros Hdistinct Hsub r. rewrite onSelectionChange_lookup.
  change (pageSelection (onSelectionChange selected s)) with selected.
  change (rows (onSelectionChange selected s)) with (rows s).
  split.
  - intros Hr. split; [by apply Hsub|].
    assert (ident r ∈ ident <$> selected) as Hin by by apply list_elem_of_fmap_2.
    rewrite decide_False by naive_solver. apply set_all_is_Some. by left.
  - intros [Hr Hsome]. case_decide as Hdel; [by apply is_Some_None in Hsome|].
    destruct (decide (ident r ∈ ident <$> selected)) as [Hin|Hout].
    + apply list_elem_of_fmap in Hin as (r' & Heq & Hr').
      by rewrite (ident_inj_on (rows s) r r') by auto.
    + destruct Hdel. split; [by apply list_elem_of_fmap_2 | done].
Qed.

Lemma derived_selectAllOnPage s : derived (selectAllOnPage s).
Proof.
  intros r. rewrite selectAllOnPage_lookup, set_all_is_Some.
  change (pageSelection (selectAllOnPage s)) with (rows s).
  change (rows (selectAllOnPage s)) with (rows s).
  split; [|tauto]. intros Hr. split; [done|]. left. by apply list_elem_of_fmap_2.
Qed.

Lemma derived_clearSelectionOnPage s : derived (clearSelectionOnPage s).
Proof.
  intros r. rewrite clearSelectionOnPage_lookup.
  change (pageSelection (clearSelectionOnPage s)) with (@nil Artwork).
  change (rows (clearSelectionOnPage s)) with (rows s).
  split; [by intros ?%elem_of_nil|]. intros [Hr Hsome].
  rewrite decide_True in Hsome by by apply list_elem_of_fmap_2.
  by apply is_Some_None in Hsome.
Qed.

Lemma derived_removeFromSelection id s :
  derived s → derived (removeFromSelection id s).
Proof.
  intros Hs r. rewrite removeFromSelection_lookup.
  change (pageSelection (removeFromSelection id s))
    with (filter (λ r, ident r ≠ key_of id) (pageSelection s)).
  change (rows (removeFromSelection id s)) with (rows s).
  rewrite list_elem_of_filter, (Hs r). unfold ident in *. case_decide as Hid.
  - split; [intros [Hne _]; by rewrite Hid in Hne | by intros [_ ?%is_Some_None]].
  - split; [tauto|]. intros [Hr Hsome]. split; [congruence | done].
Qed.

Lemma derived_fetchPage page o w :
  derived (ui w) → derived (ui (fetchPage page o w)).
Proof.
  intros Hw. rewrite fetchPage_eq.
  destruct (received o) as [[artworks total]|e] eqn:Hreceived.
  - rewrite (fetchPage_resume_received _ _ _ _ _ Hreceived).
    intros r. apply elem_of_restored.
  - by rewrite (fetchPage_resume_caught _ _ _ _ Hreceived).
Qed.

(** C5.  The checked subset restored by a fetch is taken from the store as
    it was when the fetch was issued.  Here page 2 is requested while
    record 12 is selected, record 12 is deselected from the summary panel
    before the response arrives, and the response then shows record 12
    checked although the store no longer holds it. *)
Theorem restored_from_stale_store :
  rows (ui (run Sample.world
              [PageChange 1; Deselect (VNum 12); Settle 0 (Body Sample.body2)]))
    = Sample.page2 ∧
  totalRecords (ui (run Sample.world
              [PageChange 1; Deselect (VNum 12); Settle 0 (Body Sample.body2)]))
    = VNum 5 ∧
  selectedMap (ui (run Sample.world
              [PageChange 1; Deselect (VNum 12); Settle 0 (Body Sample.body2)]))
    !! KNum 12 = None ∧
  pageSelection (ui (run Sample.world
              [PageChange 1; Deselect (VNum 12); Settle 0 (Body Sample.body2)]))
    = [Sample.artwork 12 "l"].
Proof. by vm_compute. Qed.

(** C6.  Going to page 2 and back to page 1 does not reproduce the checked
    subset when it was restored from a stale store.  Page 1 is requested
    again while it is on screen, record 1 is checked before the response
    arrives, and the response restores an empty checked subset although the
    store holds record 1.  From there, with the store left alone, the round
    trip through page 2 shows record 1 checked. *)
Theorem round_trip_after_stale_restore :
  rows (ui (run mounted
              [Settle 0 (Body Sample.body1); PageChange 0;
               SelectionChange [Sample.artwork 1 "a"];
               Settle 0 (Body Sample.body1)])) = Sample.page1 ∧
  pageSelection (ui (run mounted
              [Settle 0 (Body Sample.body1); PageChange 0;
               SelectionChange [Sample.artwork 1 "a"];
               Settle 0 (Body Sample.body1)])) = [] ∧
  selectedMap (ui (run mounted
              [Settle 0 (Body Sample.body1); PageChange 0;
               SelectionChange [Sample.artwork 1 "a"];
               Settle 0 (Body Sample.body1);
               PageChange 1; Settle 0 (Body Sample.body2);
               PageChange 0; Settle 0 (Body Sample.body1)]))
    = selectedMap (ui (run mounted
              [Settle 0 (Body Sample.body1); PageChange 0;
               SelectionChange [Sample.artwork 1 "a"];
               Settle 0 (Body Sample.body1)])) ∧
  rows (ui (run mounted
              [Settle 0 (Body Sample.body1); PageChange 0;
               SelectionChange [Sample.artwork 1 "a"];
               Settle 0 (Body Sample.body1);
               PageChange 1; Settle 0 (Body Sample.body2);
               PageChange 0; Settle 0 (Body Sample.body1)])) = Sample.page1 ∧
  pageSelection (ui (run mounted
              [Settle 0 (Body Sample.body1); PageChange 0;
               SelectionChange [Sample.artwork 1 "a"];
               Settle 0 (Body Sample.body1);
               PageChange 1; Settle 0 (Body Sample.body2);
               PageChange 0; Settle 0 (Body Sample.body1)]))
    = [Sample.artwork 1 "a"].
Proof. by vm_compute. Qed.

(** X19.  Leave a page whose checked subset is derived from the store,
    fetch another page, let any events follow that leave the store's
    membership of the first page's identifiers as it was, and fetch the
    first page again with the same records: the checked subset is the one
    shown before leaving. *)
Theorem page_round_trip (w : World) (away back : Z) (o_away o_back : outcome)
    (between : list event) (total : value) :
  derived (ui w) →
  received o_back = Ok (rows (ui w), total) →
  (∀ r, r ∈ rows (ui w) →
        is_Some (selectedMap (ui (run (fetchPage away o_away w) between)) !! ident r) ↔
        is_Some (selectedMap (ui w) !! ident r)) →
  rows (ui (fetchPage back o_back (run (fetchPage away o_away w) between)))
    = rows (ui w) ∧
  ∀ r, r ∈ pageSelection
             (ui (fetchPage back o_back (run (fetchPage away o_away w) between)))
       ↔ r ∈ pageSelection (ui w).
Proof.
  intros Hchecked Hback Hstore. rewrite fetchPage_eq.
  rewrite (fetchPage_resume_received _ _ _ _ _ Hback). cbn [snd ui rows pageSelection].
  split; [done|]. intros r.
  rewrite elem_of_restored, (Hchecked r). naive_solver.
Qed.

Lemma page_round_trip_witness :
  derived Sample.browsing ∧
  received (Body Sample.body1) = Ok (rows Sample.browsing, VNum 5) ∧
  ∀ r, r ∈ pageSelection
             (ui (fetchPage 1 (Body Sample.body1)
                    (run (fetchPage 2 (Body Sample.body2) Sample.world)
                         [SelectAllClick])))
       ↔ r ∈ pageSelection Sample.browsing.
Proof.
  assert (derived Sample.browsing) as Hderived.
  { intros r. cbn [Sample.browsing pageSelection rows selectedMap].
    unfold Sample.page1. split.
    + intros ->%list_elem_of_singleton. split; [set_solver | vm_compute; eauto].
    + intros [Hr Hsome]. set_unfold.
      destruct Hr as [-> | [-> | [-> | []]]]; [by left | |];
        vm_compute in Hsome; by destruct Hsome. }
  split; [exact Hderived|]. split; [reflexivity|].
  apply (page_round_trip Sample.world 2 1 (Body Sample.body2) (Body Sample.body1)
           [SelectAllClick] (VNum 5)).
  - exact Hderived.
  - reflexivity.
  - intros r Hr. cbn [Sample.world ui Sample.browsing rows] in Hr.
    unfold Sample.page1 in Hr. set_unfold.
    destruct Hr as [-> | [-> | [-> | []]]]; vm_compute; tauto.
Defined.

(** ** Normalizing a record *)

Lemma normalize_object ref fields :
  normalize (VObj ref fields) =
  Ok (Artwork.mk
        (default VUndefined (own fields "id"))
        (default VUndefined (own fields "title"))
        (coalesce (default VUndefined (own fields "place_of_origin")) VNull)
        (coalesce (default VUndefined (own fields "artist_display")) VNull)
        (coalesce (default VUndefined (own fields "inscriptions")) VNull)
        (coalesce (default VUndefined (own fields "date_start")) VNull)
        (coalesce (default VUndefined (own fields "date_end")) VNull)).
Proof. done. Qed.

Lemma elem_of_consumed name :
  name ∈ consumed →
  name = "id" ∨ name = "title" ∨ name = "place_of_origin" ∨
  name = "artist_display" ∨ name = "inscriptions" ∨ name = "date_start" ∨
  name = "date_end".
Proof. unfold consumed. set_unfold. tauto. Qed.

(** C4.  A raw record normalizes to a record that holds, for each consumed
    field, the raw value when the field is present (JSON has no undefined)
    and undefined or null when it is absent; raw records that agree on the
    consumed fields normalize alike. *)
Theorem normalize_fields (ref : positive) (fields : list (string * value)) :
  ∃ a, normalize (VObj ref fields) = Ok a ∧
    (∀ name v, name ∈ consumed → own fields name = Some v → v ≠ VUndefined →
               field a name = v) ∧
    (∀ name, name ∈ consumed → own fields name = None →
             nullish (field a name) = true) ∧
    (∀ ref' fields',
       (∀ name, name ∈ consumed → own fields' name = own fields name) →
       normalize (VObj ref' fields') = Ok a).
Proof.
  eexists. split; [apply normalize_object|]. split; [|split].
  - intros name v Hname Hv Hdefined.
    destruct (elem_of_consumed name Hname) as [-> | [-> | [-> | [-> | [-> | [-> | ->]]]]]];
      unfold field; simpl; rewrite Hv; simpl; by destruct v.
  - intros name Hname Habsent.
    destruct (elem_of_consumed name Hname) as [-> | [-> | [-> | [-> | [-> | [-> | ->]]]]]];
      unfold field; simpl; by rewrite Habsent.
  - intros ref' fields' Hsame. rewrite normalize_object.
    by rewrite !Hsame by (unfold consumed; set_solver).
Qed.

Lemma normalize_fields_witness :
  normalize (Sample.raw 13 1 "a") = Ok (Sample.artwork 1 "a") ∧
  field (Sample.artwork 1 "a") "title" = VStr "a" ∧
  nullish (field (Sample.artwork 1 "a") "date_end") = true.
Proof.
  destruct (normalize_fields 13 [("id", VNum 1); ("title", VStr "a")])
    as (a & Ha & Hpresent & Habsent & _).
  assert (a = Sample.artwork 1 "a") as -> by (by injection Ha as <-).
  split; [reflexivity|]. split.
  - apply Hpresent; [unfold consumed; set_solver | reflexivity | discriminate].
  - apply Habsent; [unfold consumed; set_solver | reflexivity].
Defined.


(** ** The scenario of the specification *)

(** Page 1 (identifiers 1 to 10) arrives and is selected whole: ten
    entries.  Page 2 (identifiers 11 to 20) arrives and nothing is checked
    there: still ten entries, all of page 1.  Removing identifier 5 leaves
    nine entries, 5 not among them. *)
Example scenario :
  size (selectedMap (ui (run mounted
    [Settle 0 (Body (Sample.full_page 1 1)); SelectAllClick]))) = 10%nat ∧
  dom (selectedMap (ui (run mounted
    [Settle 0 (Body (Sample.full_page 1 1)); SelectAllClick;
     PageChange 1; Settle 0 (Body (Sample.full_page 50 11)); SelectionChange []])))
    = list_to_set (KNum <$> seqZ 1 10) ∧
  size (selectedMap (ui (run mounted
    [Settle 0 (Body (Sample.full_page 1 1)); SelectAllClick;
     PageChange 1; Settle 0 (Body (Sample.full_page 50 11)); SelectionChange [];
     Deselect (VNum 5)]))) = 9%nat ∧
  selectedMap (ui (run mounted
    [Settle 0 (Body (Sample.full_page 1 1)); SelectAllClick;
     PageChange 1; Settle 0 (Body (Sample.full_page 50 11)); SelectionChange [];
     Deselect (VNum 5)])) !! KNum 5 = None.
Proof. by vm_compute. Qed.

(** The marks of the specification on a short run: record 1 was last
    marked by select all, record 2 by remove one, record 11 by nothing. *)
Example last_mark_sample :
  last_mark mounted
    [Settle 0 (Body Sample.body1); SelectAllClick; Deselect (VNum 2)] (KNum 1) None
    = Some true ∧
  last_mark mounted
    [Settle 0 (Body Sample.body1); SelectAllClick; Deselect (VNum 2)] (KNum 2) None
    = Some false ∧
  last_mark mounted
    [Settle 0 (Body Sample.body1); SelectAllClick; Deselect (VNum 2)] (KNum 11) None
    = None.
Proof. by vm_compute. Qed.

(** A body that is [null] has no property to read: [json.data] throws, the
    exception is caught, and the page shown stays. *)
Example null_body :
  rows (ui (fetchPage 2 (Body VNull) Sample.world)) = Sample.page1 ∧
  console (fetchPage 2 (Body VNull) Sample.world) = [("fetch error", TypeError)].
Proof. by vm_compute. Qed.

(** So does a body whose [data] is not an array, and one whose [data]
    holds a [null] record. *)
Example malformed_data :
  console (fetchPage 2 (Body (VObj 1 [("data", VStr "none")])) Sample.world)
    = [("fetch error", TypeError)] ∧
  console (fetchPage 2 (Body (VObj 1 [("data", VArr 2 [VNull])])) Sample.world)
    = [("fetch error", TypeError)].
Proof. by vm_compute. Qed.

(** * Further properties of the handlers *)

(** A key of the list gets its entry from the list alone. *)
Lemma set_all_overwrites (l : list Artwork) (m m' : gmap key Entry) k :
  k ∈ ident <$> l → set_all l m !! k = set_all l m' !! k.
Proof.
  induction l as [|row l IH] using rev_ind; [by intros ?%elem_of_nil|].
  rewrite fmap_app, !set_all_snoc. simpl. intros Hk.
  destruct (decide (ident row = k)) as [<-|Hne].
  - by rewrite !lookup_insert_eq.
  - rewrite !lookup_insert_ne by done. apply IH. set_solver.
Qed.

Lemma State_eq (s1 s2 : State) :
  rows s1 = rows s2 → loading s1 = loading s2 →
  totalRecords s1 = totalRecords s2 → currentPage s1 = currentPage s2 →
  (∀ k, selectedMap s1 !! k = selectedMap s2 !! k) →
  pageSelection s1 = pageSelection s2 →
  s1 = s2.
Proof.
  destruct s1, s2. simpl. intros -> -> -> -> Hmap ->.
  f_equal. by apply map_eq.
Qed.

(** X1.  Reporting the same checked list twice changes nothing the second time. *)
Theorem onSelectionChange_idempotent (selected : list Artwork) (s : State) :
  onSelectionChange selected (onSelectionChange selected s) =
  onSelectionChange selected s.
Proof.
  apply State_eq; try done. intros k.
  rewrite !onSelectionChange_lookup.
  change (rows (onSelectionChange selected s)) with (rows s).
  case_decide as Hdel; [done|].
  destruct (decide (k ∈ ident <$> selected)) as [Hin|Hout].
  - by apply set_all_overwrites.
  - rewrite !set_all_other by done. rewrite onSelectionChange_lookup.
    rewrite decide_False by done. by rewrite set_all_other.
Qed.

(** X2.  The two header buttons are toggles: select all on page reports every
    visible record checked, clear page selection reports none. *)
Theorem page_buttons_as_toggles (s : State) :
  selectAllOnPage s = onSelectionChange (rows s) s ∧
  clearSelectionOnPage s = onSelectionChange [] s.
Proof.
  split; [|by apply State_eq].
  apply State_eq; try done. intros k.
  rewrite selectAllOnPage_lookup, onSelectionChange_lookup.
  by rewrite decide_False by tauto.
Qed.

(** X3.  Remove one: the identifier leaves the store, every checked record
    bearing it leaves the checked subset and no other does, a checked
    subset derived from the store stays so, and a second removal of the
    same identifier changes nothing. *)
Theorem removeFromSelection_effect (id : value) (s : State) :
  selectedMap (removeFromSelection id s) !! key_of id = None ∧
  (∀ r, r ∈ pageSelection (removeFromSelection id s) ↔
        r ∈ pageSelection s ∧ ident r ≠ key_of id) ∧
  (derived s → derived (removeFromSelection id s)) ∧
  removeFromSelection id (removeFromSelection id s) = removeFromSelection id s.
Proof.
  split; [|split; [|split]].
  - by rewrite removeFromSelection_lookup, decide_True.
  - intros r.
    change (pageSelection (removeFromSelection id s))
      with (filter (λ r, ident r ≠ key_of id) (pageSelection s)).
    rewrite list_elem_of_filter. tauto.
  - apply derived_removeFromSelection.
  - apply State_eq; try done.
    + intros k. rewrite !removeFromSelection_lookup. by case_decide.
    + change (pageSelection (removeFromSelection id (removeFromSelection id s)))
        with (filter (λ r, ident r ≠ key_of id)
                (filter (λ r, ident r ≠ key_of id) (pageSelection s))).
      change (pageSelection (removeFromSelection id s))
        with (filter (λ r, ident r ≠ key_of id) (pageSelection s)).
      rewrite list_filter_filter. apply list_filter_iff. tauto.
Qed.

Lemma browsing_derived : derived Sample.browsing.
Proof.
  intros r. cbn [Sample.browsing pageSelection rows selectedMap].
  unfold Sample.page1. split.
  - intros ->%list_elem_of_singleton. split; [set_solver | vm_compute; eauto].
  - intros [Hr Hsome]. set_unfold.
    destruct Hr as [-> | [-> | [-> | []]]]; [by left | |];
      vm_compute in Hsome; by destruct Hsome.
Defined.

Lemma removeFromSelection_effect_witness :
  derived Sample.browsing ∧
  derived (removeFromSelection (VNum 1) Sample.browsing) ∧
  selectedMap (removeFromSelection (VNum 1) Sample.browsing) !! KNum 1 = None.
Proof.
  destruct (removeFromSelection_effect (VNum 1) Sample.browsing)
    as (Hgone & _ & Hkept & _).
  split; [exact browsing_derived|].
  split; [exact (Hkept browsing_derived) | exact Hgone].
Defined.

(** X4.  Removing an identifier that the store does not hold changes nothing,
    when the checked subset is derived from the store. *)
Theorem removeFromSelection_absent (id : value) (s : State) :
  derived s →
  selectedMap s !! key_of id = None →
  removeFromSelection id s = s.
Proof.
  intros Hs Habsent. apply State_eq; try done.
  - intros k. rewrite removeFromSelection_lookup. case_decide; congruence.
  - change (pageSelection (removeFromSelection id s))
      with (filter (λ r, ident r ≠ key_of id) (pageSelection s)).
    assert (Forall (λ r, ident r ≠ key_of id) (pageSelection s)) as Hall.
    { apply Forall_forall. intros r [_ Hsome]%Hs Heq.
      rewrite Heq, Habsent in Hsome. by apply is_Some_None in Hsome. }
    revert Hall. generalize (pageSelection s). intros l.
    induction 1 as [|r l Hr Hl IH]; [done|].
    rewrite filter_cons_True by done. by rewrite IH.
Qed.

Lemma removeFromSelection_absent_witness :
  derived Sample.browsing ∧
  selectedMap Sample.browsing !! key_of (VNum 99) = None ∧
  removeFromSelection (VNum 99) Sample.browsing = Sample.browsing.
Proof.
  split; [exact browsing_derived|]. split; [reflexivity|].
  exact (removeFromSelection_absent (VNum 99) Sample.browsing
           browsing_derived eq_refl).
Defined.

(** ** Invariants along a run *)

Lemma keyed_set_all (l : list Artwork) (m : gmap key Entry) :
  map_Forall (λ k e, key_of (Entry.id e) = k) m →
  map_Forall (λ k e, key_of (Entry.id e) = k) (set_all l m).
Proof.
  intros Hm. induction l as [|row l IH] using rev_ind; [done|].
  rewrite set_all_snoc. by apply map_Forall_insert_2.
Qed.

Lemma keyed_delete_all (l : list Artwork) (m : gmap key Entry) :
  map_Forall (λ k e, key_of (Entry.id e) = k) m →
  map_Forall (λ k e, key_of (Entry.id e) = k) (delete_all l m).
Proof.
  intros Hm. induction l as [|row l IH] using rev_ind; [done|].
  rewrite delete_all_snoc. by apply map_Forall_delete.
Qed.

Lemma keyed_delete_unchecked (selected l : list Artwork) (m : gmap key Entry) :
  map_Forall (λ k e, key_of (Entry.id e) = k) m →
  map_Forall (λ k e, key_of (Entry.id e) = k) (delete_unchecked selected l m).
Proof.
  intros Hm. induction l as [|row l IH] using rev_ind; [done|].
  rewrite delete_unchecked_snoc.
  destruct (find_same selected row); [done|]. by apply map_Forall_delete.
Qed.

Lemma keyed_step (w : World) (ev : event) :
  map_Forall (λ k e, key_of (Entry.id e) = k) (selectedMap (ui w)) →
  map_Forall (λ k e, key_of (Entry.id e) = k) (selectedMap (ui (step w ev))).
Proof.
  intros Hw. destruct ev as [e_page|i o|checked| | |id]; unfold step, handle; cbn [ui].
  - done.
  - destruct (inflight w !! i) as [closure_selectedMap|]; [|done].
    by destruct (fetchPage_resume_frame closure_selectedMap o
                   (mkWorld (ui w) (console w) (network w) (delete i (inflight w))))
      as [-> _].
  - by apply keyed_delete_unchecked, keyed_set_all.
  - by apply keyed_set_all.
  - by apply keyed_delete_all.
  - by apply map_Forall_delete.
Qed.

Lemma keyed_run (evs : list event) : ∀ w,
  map_Forall (λ k e, key_of (Entry.id e) = k) (selectedMap (ui w)) →
  map_Forall (λ k e, key_of (Entry.id e) = k) (selectedMap (ui (run w evs))).
Proof.
  induction evs as [|ev evs IH]; intros w Hw; [done|].
  simpl. by apply IH, keyed_step.
Qed.

Lemma keyed_mounted :
  map_Forall (λ k e, key_of (Entry.id e) = k) (selectedMap (ui mounted)).
Proof. apply map_Forall_empty. Qed.

(** X5.  Whatever happens after mount, every entry of the store sits under the
    key of its own [id]. *)
Theorem store_keyed_by_id (evs : list event) (k : key) (e : Entry) :
  selectedMap (ui (run mounted evs)) !! k = Some e →
  key_of (Entry.id e) = k.
Proof. intros Hk. by apply (keyed_run evs mounted keyed_mounted k e). Qed.

Lemma store_keyed_by_id_witness :
  selectedMap (ui (run mounted [Settle 0 (Body Sample.body1); SelectAllClick]))
    !! KNum 2 = Some (entry_of (Sample.artwork 2 "b")) ∧
  key_of (Entry.id (entry_of (Sample.artwork 2 "b"))) = KNum 2.
Proof.
  split; [reflexivity|].
  exact (store_keyed_by_id [Settle 0 (Body Sample.body1); SelectAllClick]
           (KNum 2) (entry_of (Sample.artwork 2 "b")) eq_refl).
Defined.

(** X6.  Between two responses the visible list does not change, and the clicks
    on the table, the header buttons and the summary panel keep the checked
    subset derived from the store; a toggle reports records of the visible
    list, whose identifiers are pairwise distinct. *)
Theorem clicks_keep_derived (w : World) (evs : list event) :
  NoDup (ident <$> rows (ui w)) →
  derived (ui w) →
  Forall (λ ev, match ev with
                | Settle _ _ => False
                | SelectionChange checked => checked ⊆ rows (ui w)
                | _ => True
                end) evs →
  rows (ui (run w evs)) = rows (ui w) ∧ derived (ui (run w evs)).
Proof.
  intros Hdistinct Hw Hevs. revert w Hdistinct Hw Hevs.
  induction evs as [|ev evs IH]; intros w Hdistinct Hw Hevs; [done|].
  apply Forall_cons in Hevs as [Hev Hevs]. simpl.
  assert (rows (ui (step w ev)) = rows (ui w) ∧ derived (ui (step w ev)))
    as [Hrows Hstep].
  { destruct ev as [e_page|i o|checked| | |id]; unfold step, handle; cbn [ui].
    - done.
    - done.
    - split; [done|]. by apply derived_onSelectionChange.
    - split; [done|]. apply derived_selectAllOnPage.
    - split; [done|]. apply derived_clearSelectionOnPage.
    - split; [done|]. by apply derived_removeFromSelection. }
  rewrite <- Hrows. apply IH; [by rewrite Hrows | done |].
  by rewrite Hrows.
Qed.

Lemma clicks_keep_derived_witness :
  derived (ui (run Sample.world
                 [SelectionChange Sample.toggled; Deselect (VNum 12); SelectAllClick])).
Proof.
  apply (clicks_keep_derived Sample.world
           [SelectionChange Sample.toggled; Deselect (VNum 12); SelectAllClick]).
  - exact page1_NoDup.
  - exact browsing_derived.
  - repeat apply Forall_cons; try done. unfold Sample.toggled. set_solver.
Defined.

(** X7.  A toggle that reports records of the visible list, select all on page
    and clear page selection each leave the checked subset derived from
    the store, whatever it was before. *)
Theorem page_actions_establish_derived (s : State) (selected : list Artwork) :
  (NoDup (ident <$> rows s) → selected ⊆ rows s →
   derived (onSelectionChange selected s)) ∧
  derived (selectAllOnPage s) ∧
  derived (clearSelectionOnPage s).
Proof.
  split; [apply derived_onSelectionChange|].
  split; [apply derived_selectAllOnPage | apply derived_clearSelectionOnPage].
Qed.

Lemma page_actions_establish_derived_witness :
  derived (onSelectionChange Sample.toggled Sample.browsing).
Proof.
  destruct (page_actions_establish_derived Sample.browsing Sample.toggled)
    as [Htoggle _].
  apply Htoggle; [exact page1_NoDup|]. unfold Sample.toggled. set_solver.
Defined.

(** ** Settling a fetch *)

(** X8.  Whatever the outcome of the [i]-th suspended fetch (records, a
    rejection, a body that cannot be read), settling it leaves the store,
    the page number and the requests sent as they were, clears the loading
    flag, and logs one error at most. *)
Theorem settle_frame (w : World) (i : nat) (closure_selectedMap : gmap key Entry)
    (o : outcome) :
  inflight w !! i = Some closure_selectedMap →
  selectedMap (ui (step w (Settle i o))) = selectedMap (ui w) ∧
  currentPage (ui (step w (Settle i o))) = currentPage (ui w) ∧
  network (step w (Settle i o)) = network w ∧
  inflight (step w (Settle i o)) = delete i (inflight w) ∧
  loading (ui (step w (Settle i o))) = false ∧
  (console (step w (Settle i o)) = console w ∨
   ∃ err, console (step w (Settle i o)) = console w ++ [("fetch error", err)]).
Proof.
  intros Hi. unfold step. rewrite Hi.
  destruct (received o) as [[artworks total]|e] eqn:Hreceived.
  - rewrite (fetchPage_resume_received _ _ _ _ _ Hreceived). simpl. tauto.
  - rewrite (fetchPage_resume_caught _ _ _ _ Hreceived). simpl. eauto 10.
Qed.

Lemma settle_frame_witness :
  inflight (onPageChange 1 Sample.world) !! 0%nat = Some (selectedMap Sample.browsing) ∧
  selectedMap (ui (step (onPageChange 1 Sample.world) (Settle 0 (Body Sample.body2))))
    = selectedMap Sample.browsing ∧
  loading (ui (step (onPageChange 1 Sample.world) (Settle 0 (Body Sample.body2))))
    = false.
Proof.
  split; [reflexivity|].
  destruct (settle_frame (onPageChange 1 Sample.world) 0 (selectedMap Sample.browsing)
              (Body Sample.body2) eq_refl) as (Hstore & _ & _ & _ & Hloading & _).
  split; [exact Hstore | exact Hloading].
Defined.

(** X9.  A fetch that settles with records before any other event: the visible
    list and the total are the received ones, the checked subset is the part
    of the received records whose identifiers the store holds, the store and
    the page number stay, and the loading flag is cleared. *)
Theorem fetch_success (w : World) (page : Z) (o : outcome)
    (artworks : list Artwork) (total : value) :
  received o = Ok (artworks, total) →
  ui (fetchPage page o w) =
    mkState artworks false total (currentPage (ui w)) (selectedMap (ui w))
      (filter (λ r, has (selectedMap (ui w)) (ident r)) artworks) ∧
  derived (ui (fetchPage page o w)) ∧
  console (fetchPage page o w) = console w ∧
  network (fetchPage page o w) = network w ++ [url page].
Proof.
  intros Hreceived. rewrite fetchPage_eq.
  rewrite (fetchPage_resume_received _ _ _ _ _ Hreceived). simpl.
  split; [done|]. split; [|done]. intros r. apply elem_of_restored.
Qed.

Lemma fetch_success_witness :
  received (Body Sample.body2) = Ok (Sample.page2, VNum 5) ∧
  rows (ui (fetchPage 2 (Body Sample.body2) Sample.world)) = Sample.page2 ∧
  pageSelection (ui (fetchPage 2 (Body Sample.body2) Sample.world))
    = [Sample.artwork 12 "l"].
Proof.
  split; [reflexivity|].
  destruct (fetch_success Sample.world 2 (Body Sample.body2) Sample.page2 (VNum 5)
              eq_refl) as (Hui & _).
  rewrite Hui. split; reflexivity.
Defined.

(** X10.  The checked subset restored by the [i]-th suspended fetch is derived
    from the store exactly when the store of the fetch's closure and the
    present store hold the same identifiers among the received records. *)
Theorem settle_derived_iff (w : World) (i : nat) (closure_selectedMap : gmap key Entry)
    (o : outcome) (artworks : list Artwork) (total : value) :
  inflight w !! i = Some closure_selectedMap →
  received o = Ok (artworks, total) →
  derived (ui (step w (Settle i o))) ↔
  ∀ r, r ∈ artworks →
       (is_Some (closure_selectedMap !! ident r) ↔
        is_Some (selectedMap (ui w) !! ident r)).
Proof.
  intros Hi Hreceived.
  rewrite (settle_received _ _ _ _ _ _ Hi Hreceived).
  unfold derived. cbn [ui rows pageSelection selectedMap].
  split.
  - intros Hd r Hr. specialize (Hd r). rewrite elem_of_restored in Hd. tauto.
  - intros Hsame r. rewrite elem_of_restored. specialize (Hsame r). tauto.
Qed.

Lemma settle_derived_iff_witness :
  inflight (onPageChange 1 Sample.world) !! 0%nat = Some (selectedMap Sample.browsing) ∧
  received (Body Sample.body2) = Ok (Sample.page2, VNum 5) ∧
  derived (ui (step (onPageChange 1 Sample.world) (Settle 0 (Body Sample.body2)))).
Proof.
  split; [reflexivity|]. split; [reflexivity|].
  apply (settle_derived_iff (onPageChange 1 Sample.world) 0
           (selectedMap Sample.browsing) (Body Sample.body2) Sample.page2 (VNum 5)
           eq_refl eq_refl).
  intros r _. reflexivity.
Defined.

(** ** Reading a body *)

Lemma normalize_nullish d : nullish d = true → normalize d = Throw TypeError.
Proof. by destruct d. Qed.

Lemma normalize_value d :
  nullish d = false →
  ∃ a, normalize d = Ok a ∧
       Artwork.place_of_origin a ≠ VUndefined ∧
       Artwork.artist_display a ≠ VUndefined ∧
       Artwork.inscriptions a ≠ VUndefined ∧
       Artwork.date_start a ≠ VUndefined ∧
       Artwork.date_end a ≠ VUndefined.
Proof.
  assert (∀ v, coalesce v VNull ≠ VUndefined) as Hdefault by by intros [].
  destruct d; try done; eexists; (split; [reflexivity|]); simpl; auto 10.
Qed.

Lemma mapM_normalize_cons d items :
  mapM normalize (d :: items) =
  a ← normalize d; l ← mapM normalize items; mret (a :: l).
Proof. done. Qed.

Lemma mapM_normalize_Ok items l :
  mapM normalize items = Ok l ↔ Forall2 (λ d a, normalize d = Ok a) items l.
Proof.
  revert l. induction items as [|d items IH]; intros l.
  - split; [by intros [= <-]; constructor | by inversion 1].
  - rewrite mapM_normalize_cons. split.
    + destruct (normalize d) as [a|] eqn:Hd; [|done]. simpl.
      destruct (mapM normalize items) as [l'|] eqn:Hitems; [|done].
      intros [= <-]. constructor; [done|]. by apply IH.
    + inversion 1 as [|? a ? l' Hd Hitems]; simplify_eq.
      apply IH in Hitems. rewrite Hd. simpl. by rewrite Hitems.
Qed.

Lemma mapM_normalize_values items :
  Forall (λ d, nullish d = false) items → ∃ l, mapM normalize items = Ok l.
Proof.
  induction 1 as [|d items Hd _ [l IH]]; [by exists []|].
  destruct (normalize_value d Hd) as (a & Ha & _).
  exists (a :: l). rewrite mapM_normalize_cons, Ha. simpl. by rewrite IH.
Qed.

Lemma mapM_normalize_Throw items e :
  mapM normalize items = Throw e →
  e = TypeError ∧ Exists (λ d, nullish d = true) items.
Proof.
  induction items as [|d items IH]; [done|].
  rewrite mapM_normalize_cons.
  destruct (nullish d) eqn:Hd.
  - rewrite normalize_nullish by done. intros [= <-]. split; [done|]. by left.
  - destruct (normalize_value d Hd) as (a & -> & _). simpl.
    destruct (mapM normalize items) as [l|e'] eqn:Hitems; [done|].
    intros [= <-]. destruct (IH eq_refl) as [-> ?]. split; [done|]. by right.
Qed.

Lemma decode_Throw json e : decode json = Throw e → e = TypeError.
Proof.
  unfold decode. destruct (get json "data") as [data|] eqn:Hdata; simpl.
  - destruct (truthy data).
    + destruct data; simpl; try by intros [= <-].
      by intros [-> _]%mapM_normalize_Throw.
    + done.
  - destruct json; simpl in Hdata; by intros; simplify_eq.
Qed.

Lemma decode_Ok json :
  (∃ l, decode json = Ok l) ↔
  ∃ data, get json "data" = Ok data ∧
    (truthy data = false ∨
     ∃ ref items, data = VArr ref items ∧ Forall (λ d, nullish d = false) items).
Proof.
  unfold decode. split.
  - intros [l Hl]. destruct (get json "data") as [data|]; [|done]. simpl in Hl.
    exists data. split; [done|].
    destruct (truthy data) eqn:Htruthy; [|by left]. right.
    destruct data; try done. simpl in Hl. eexists _, _. split; [done|].
    apply Forall_forall. intros d Hd.
    destruct (nullish d) eqn:Hnull; [|done].
    apply mapM_normalize_Ok in Hl.
    apply list_elem_of_lookup in Hd as [n Hn].
    destruct (Forall2_lookup_l _ _ _ _ _ Hl Hn) as (a & _ & Ha).
    by rewrite normalize_nullish in Ha.
  - intros (data & -> & [Hfalsy | (ref & items & -> & Hitems)]); simpl.
    + rewrite Hfalsy. by exists [].
    + by apply mapM_normalize_values.
Qed.

(** X11.  A record of the response normalizes unless it is null (or undefined):
    reading a property of null throws.  A normalized record never holds
    undefined in the five fields read with [?? null], and a record that is
    not an object (a number, a string, an array) normalizes to a blank row. *)
Theorem normalize_outcome (d : value) :
  (nullish d = true → normalize d = Throw TypeError) ∧
  (nullish d = false →
   ∃ a, normalize d = Ok a ∧
        Artwork.place_of_origin a ≠ VUndefined ∧
        Artwork.artist_display a ≠ VUndefined ∧
        Artwork.inscriptions a ≠ VUndefined ∧
        Artwork.date_start a ≠ VUndefined ∧
        Artwork.date_end a ≠ VUndefined ∧
        ((∀ ref fields, d ≠ VObj ref fields) →
         a = Artwork.mk VUndefined VUndefined VNull VNull VNull VNull VNull)).
Proof.
  split; [apply normalize_nullish|]. intros Hd.
  destruct (normalize_value d Hd) as (a & Ha & ? & ? & ? & ? & ?).
  exists a. repeat (split; [done|]). intros Hprimitive.
  destruct d as [| | | | |ref items|ref fields];
    try done; try (cbv in Ha; by simplify_eq).
  by destruct (Hprimitive ref fields).
Qed.

Lemma normalize_outcome_witness :
  normalize VNull = Throw TypeError ∧
  ∃ a, normalize (VNum 7) = Ok a ∧
       a = Artwork.mk VUndefined VUndefined VNull VNull VNull VNull VNull.
Proof.
  split.
  - by apply (normalize_outcome VNull).
  - destruct (normalize_outcome (VNum 7)) as [_ Hvalue].
    destruct (Hvalue eq_refl) as (a & Ha & _ & _ & _ & _ & _ & Hblank).
    exists a. split; [exact Ha|]. by apply Hblank.
Defined.

(** X12.  A body is read when its [data] is falsy or is an array without a null
    record; then no error is logged, and the rows shown are none for falsy
    [data] and otherwise the normalized records, one for each item of the
    array and in its order. *)
Theorem readable_body (w : World) (i : nat) (closure_selectedMap : gmap key Entry)
    (json data : value) :
  inflight w !! i = Some closure_selectedMap →
  get json "data" = Ok data →
  (truthy data = false →
   rows (ui (step w (Settle i (Body json)))) = [] ∧
   console (step w (Settle i (Body json))) = console w) ∧
  (∀ ref items,
     data = VArr ref items →
     Forall (λ d, nullish d = false) items →
     Forall2 (λ d a, normalize d = Ok a) items
       (rows (ui (step w (Settle i (Body json))))) ∧
     console (step w (Settle i (Body json))) = console w).
Proof.
  intros Hi Hdata. split.
  - intros Hfalsy.
    assert (received (Body json) = Ok ([], total_of json)) as Hreceived.
    { unfold received, decode. simpl. rewrite Hdata. simpl. by rewrite Hfalsy. }
    by rewrite (settle_received _ _ _ _ _ _ Hi Hreceived).
  - intros ref items -> Hitems.
    destruct (mapM_normalize_values items Hitems) as [l Hl].
    assert (received (Body json) = Ok (l, total_of json)) as Hreceived.
    { unfold received, decode. simpl. rewrite Hdata. simpl. by rewrite Hl. }
    rewrite (settle_received _ _ _ _ _ _ Hi Hreceived). simpl.
    split; [by apply mapM_normalize_Ok | done].
Qed.

Lemma readable_body_witness :
  inflight (onPageChange 1 Sample.world) !! 0%nat = Some (selectedMap Sample.browsing) ∧
  get (VObj 1 [("data", VNum 0)]) "data" = Ok (VNum 0) ∧
  truthy (VNum 0) = false ∧
  rows (ui (step (onPageChange 1 Sample.world)
              (Settle 0 (Body (VObj 1 [("data", VNum 0)]))))) = [].
Proof.
  split; [reflexivity|]. split; [reflexivity|]. split; [reflexivity|].
  destruct (readable_body (onPageChange 1 Sample.world) 0
              (selectedMap Sample.browsing) (VObj 1 [("data", VNum 0)]) (VNum 0)
              eq_refl eq_refl) as [Hfalsy _].
  by destruct (Hfalsy eq_refl).
Defined.

(** X13.  Any other parsed body is refused whole: a body that is null, a truthy
    [data] that is not an array, or an array with a single null record.
    The state stays as it was apart from the cleared loading flag, and a
    TypeError is logged. *)
Theorem unreadable_body (w : World) (i : nat) (closure_selectedMap : gmap key Entry)
    (json : value) :
  inflight w !! i = Some closure_selectedMap →
  ¬ (∃ data, get json "data" = Ok data ∧
       (truthy data = false ∨
        ∃ ref items, data = VArr ref items ∧ Forall (λ d, nullish d = false) items)) →
  step w (Settle i (Body json)) =
  mkWorld (setLoading false (ui w)) (console w ++ [("fetch error", TypeError)])
          (network w) (delete i (inflight w)).
Proof.
  intros Hi Hunreadable. unfold step. rewrite Hi.
  rewrite (fetchPage_resume_caught _ _ _ TypeError); [done|].
  unfold received. simpl.
  destruct (decode json) as [l|e] eqn:Hdecode.
  - destruct Hunreadable. apply decode_Ok. by exists l.
  - simpl. by rewrite (decode_Throw _ _ Hdecode).
Qed.

Lemma unreadable_body_witness :
  rows (ui (step (onPageChange 1 Sample.world)
              (Settle 0 (Body (VObj 1 [("data", VArr 2 [Sample.raw 3 11 "k"; VNull])])))))
    = Sample.page1 ∧
  console (step (onPageChange 1 Sample.world)
              (Settle 0 (Body (VObj 1 [("data", VArr 2 [Sample.raw 3 11 "k"; VNull])]))))
    = [("fetch error", TypeError)].
Proof.
  rewrite (unreadable_body (onPageChange 1 Sample.world) 0
             (selectedMap Sample.browsing)
             (VObj 1 [("data", VArr 2 [Sample.raw 3 11 "k"; VNull])]) eq_refl).
  - split; reflexivity.
  - intros (data & [= <-] & [Hfalsy | (ref & items & [= <- <-] & Hitems)]).
    + discriminate Hfalsy.
    + apply Forall_cons in Hitems as [_ Hitems].
      apply Forall_cons in Hitems as [Hnull _]. discriminate Hnull.
Defined.

(** ** Requests *)

Lemma network_step (w : World) (ev : event) :
  network (step w ev) =
  network w ++ (if ev is PageChange e_page then [url (e_page + 1)] else []).
Proof.
  destruct ev as [e_page|i o|checked| | |id]; unfold step, handle;
    cbn [network]; rewrite ?app_nil_r; try done.
  destruct (inflight w !! i) as [closure_selectedMap|]; [|done].
  by destruct (fetchPage_resume_frame closure_selectedMap o
                 (mkWorld (ui w) (console w) (network w) (delete i (inflight w))))
    as (_ & _ & _ & -> & _).
Qed.

Lemma currentPage_step (w : World) (ev : event) :
  currentPage (ui (step w ev)) =
  if ev is PageChange e_page then e_page + 1 else currentPage (ui w).
Proof.
  destruct ev as [e_page|i o|checked| | |id]; unfold step, handle; cbn [ui]; try done.
  destruct (inflight w !! i) as [closure_selectedMap|]; [|done].
  by destruct (fetchPage_resume_frame closure_selectedMap o
                 (mkWorld (ui w) (console w) (network w) (delete i (inflight w))))
    as (_ & -> & _).
Qed.

Lemma requests_run (evs : list event) : ∀ w,
  last (network w) = Some (url (currentPage (ui w))) →
  last (network (run w evs)) = Some (url (currentPage (ui (run w evs)))) ∧
  length (network (run w evs)) =
    (length (network w) +
     length (List.filter (λ ev, if ev is PageChange _ then true else false) evs))%nat.
Proof.
  induction evs as [|ev evs IH]; intros w Hw; [by rewrite Nat.add_0_r|].
  simpl. destruct (IH (step w ev)) as [Hlast Hlength].
  { rewrite network_step, currentPage_step.
    destruct ev; rewrite ?app_nil_r; try done. by rewrite last_snoc. }
  split; [done|]. rewrite Hlength, network_step.
  destruct ev; rewrite ?app_nil_r; simpl; try done.
  rewrite length_app. simpl. lia.
Qed.

(** X14.  Whatever happens after mount, the last request sent asks for the page
    number on display, which is also the page the paginator stands on, and
    one request has been sent for the mount and one for every page change:
    none is repeated, and none is spared when a page is asked for again. *)
Theorem requests_follow_navigation (evs : list event) :
  last (network (run mounted evs)) = Some (url (currentPage (ui (run mounted evs)))) ∧
  last (network (run mounted evs))
    = Some (url (paginator_first (ui (run mounted evs)) / pageSize + 1)) ∧
  length (network (run mounted evs)) =
    S (length (List.filter (λ ev, if ev is PageChange _ then true else false) evs)).
Proof.
  destruct (requests_run evs mounted eq_refl) as [Hlast Hlength].
  split; [done|]. split; [|done].
  rewrite Hlast. unfold paginator_first, pageSize.
  by rewrite Z.div_mul, Z.sub_add.
Qed.

Lemma String_length_app (s t : string) :
  String.length (s +:+ t) = (String.length s + String.length t)%nat.
Proof. induction s; simpl; auto. Qed.

Lemma String_app_inv_tail (s1 s2 t : string) : s1 +:+ t = s2 +:+ t → s1 = s2.
Proof.
  revert s2. induction s1 as [|a s1 IH]; intros [|b s2] Heq; simpl in Heq.
  - done.
  - apply (f_equal String.length) in Heq.
    rewrite ?String_length_app in Heq. simpl in Heq.
    rewrite ?String_length_app in Heq. lia.
  - apply (f_equal String.length) in Heq.
    rewrite ?String_length_app in Heq. simpl in Heq.
    rewrite ?String_length_app in Heq. lia.
  - injection Heq as -> Heq. f_equal. by apply IH.
Qed.

(** X15.  Two page numbers are requested at the same address only when they are
    the same page. *)
Theorem url_inj (page1 page2 : Z) : url page1 = url page2 → page1 = page2.
Proof.
  unfold url. intros Heq.
  apply (inj (String.app _)) in Heq.
  apply String_app_inv_tail in Heq.
  by apply (inj pretty) in Heq.
Qed.

Lemma url_inj_witness : (2 : Z) = 2.
Proof. by apply (url_inj 2 2). Defined.

(** ** Responses out of order *)

(** X16.  Two navigations in a row, the second answered first: the rows and the
    total on display are those of the first navigation's response, which
    arrived last, while the page number is that of the second navigation. *)
Theorem last_response_wins (w : World) (e_page1 e_page2 : Z) (o1 o2 : outcome)
    (artworks1 artworks2 : list Artwork) (total1 total2 : value) :
  received o1 = Ok (artworks1, total1) →
  received o2 = Ok (artworks2, total2) →
  rows (ui (run w [PageChange e_page1; PageChange e_page2;
                   Settle (S (length (inflight w))) o2;
                   Settle (length (inflight w)) o1])) = artworks1 ∧
  totalRecords (ui (run w [PageChange e_page1; PageChange e_page2;
                   Settle (S (length (inflight w))) o2;
                   Settle (length (inflight w)) o1])) = total1 ∧
  currentPage (ui (run w [PageChange e_page1; PageChange e_page2;
                   Settle (S (length (inflight w))) o2;
                   Settle (length (inflight w)) o1])) = e_page2 + 1 ∧
  loading (ui (run w [PageChange e_page1; PageChange e_page2;
                   Settle (S (length (inflight w))) o2;
                   Settle (length (inflight w)) o1])) = false.
Proof.
  intros H1 H2. unfold run. cbn [foldl].
  set (w2 := step (step w (PageChange e_page1)) (PageChange e_page2)).
  assert (inflight w2 =
          (inflight w ++ [selectedMap (ui w)]) ++ [selectedMap (ui w)]) as Hinflight
    by done.
  assert (inflight w2 !! S (length (inflight w)) = Some (selectedMap (ui w))) as Hi2.
  { rewrite Hinflight. apply list_lookup_middle. rewrite length_app. simpl. lia. }
  rewrite (settle_received w2 _ _ _ _ _ Hi2 H2).
  set (w3 := mkWorld _ _ _ _).
  assert (inflight w3 !! length (inflight w) = Some (selectedMap (ui w))) as Hi1.
  { subst w3. cbn [inflight]. rewrite Hinflight.
    replace (S (length (inflight w)))
      with (length (inflight w ++ [selectedMap (ui w)]))
      by (rewrite length_app; simpl; lia).
    rewrite delete_middle, app_nil_r. by apply list_lookup_middle. }
  by rewrite (settle_received w3 _ _ _ _ _ Hi1 H1).
Qed.

Lemma last_response_wins_witness :
  received (Body Sample.body1) = Ok (Sample.page1, VNum 5) ∧
  received (Body Sample.body2) = Ok (Sample.page2, VNum 5) ∧
  rows (ui (run Sample.world [PageChange 0; PageChange 1;
                              Settle 1 (Body Sample.body2);
                              Settle 0 (Body Sample.body1)])) = Sample.page1 ∧
  currentPage (ui (run Sample.world [PageChange 0; PageChange 1;
                              Settle 1 (Body Sample.body2);
                              Settle 0 (Body Sample.body1)])) = 2.
Proof.
  split; [reflexivity|]. split; [reflexivity|].
  destruct (last_response_wins Sample.world 0 1 (Body Sample.body1) (Body Sample.body2)
              Sample.page1 Sample.page2 (VNum 5) (VNum 5) eq_refl eq_refl)
    as (Hrows & _ & Hpage & _).
  split; [exact Hrows | exact Hpage].
Defined.

(** ** The summary panel *)

Lemma elem_of_read_all (m : gmap key Entry) (e : Entry) :
  e ∈ read_all m ↔ ∃ k, m !! k = Some e.
Proof.
  unfold read_all. rewrite list_elem_of_fmap. split.
  - intros ([k e'] & -> & Hin%elem_of_map_to_list). by exists k.
  - intros [k Hk]. exists (k, e). split; [done|]. by apply elem_of_map_to_list.
Qed.

Lemma length_read_all (m : gmap key Entry) : length (read_all m) = size m.
Proof. unfold read_all. by rewrite length_fmap, length_map_to_list. Qed.

Lemma panel_body_Listing (m : gmap key Entry) (items : list PanelItem) :
  panel_body (selectionPanel m) = Listing items →
  items = render_item <$> read_all m.
Proof.
  unfold selectionPanel. cbn [panel_body].
  destruct (length (read_all m) =? 0)%nat; [done|]. by intros [= <-].
Qed.

(** X17.  The panel counts every entry of the store, says that no rows are
    selected exactly when the store is empty, and otherwise lists one item
    for each entry, whose title and artist lines are never undefined or
    null: an absent title or artist is replaced by its placeholder. *)
Theorem selectionPanel_shows_store (m : gmap key Entry) :
  selected_count (selectionPanel m) = size m ∧
  (panel_body (selectionPanel m) = NoRowsSelected ↔ m = ∅) ∧
  (∀ items, panel_body (selectionPanel m) = Listing items →
     length items = size m ∧
     (∀ item, item ∈ items ↔ ∃ k e, m !! k = Some e ∧ item = render_item e) ∧
     (∀ item, item ∈ items →
        nullish (item_title item) = false ∧ nullish (item_meta item) = false)).
Proof.
  split; [apply length_read_all|]. split.
  - unfold selectionPanel. cbn [panel_body]. rewrite length_read_all.
    destruct (Nat.eqb_spec (size m) 0) as [Hsize|Hsize].
    + split; [|done]. intros _. by apply map_size_empty_iff.
    + split; [done|]. intros ->. by rewrite map_size_empty in Hsize.
  - intros items ->%panel_body_Listing.
    assert (∀ item, item ∈ render_item <$> read_all m ↔
                    ∃ k e, m !! k = Some e ∧ item = render_item e) as Hitems.
    { intros item. rewrite list_elem_of_fmap. split.
      - intros (e & -> & [k Hk]%elem_of_read_all). by exists k, e.
      - intros (k & e & Hk & ->). exists e. split; [done|].
        apply elem_of_read_all. by exists k. }
    split; [by rewrite length_fmap, length_read_all|]. split; [done|].
    intros item (k & e & _ & ->)%Hitems. unfold render_item, coalesce. simpl.
    split; [by destruct (Entry.title e) | by destruct (Entry.artist_display e)].
Qed.

Lemma selectionPanel_shows_store_witness :
  selected_count (selectionPanel (selectedMap Sample.browsing)) = 2%nat ∧
  ∃ items,
    panel_body (selectionPanel (selectedMap Sample.browsing)) = Listing items ∧
    length items = size (selectedMap Sample.browsing).
Proof.
  destruct (selectionPanel_shows_store (selectedMap Sample.browsing))
    as (Hcount & _ & Hlisting).
  split; [by rewrite Hcount|].
  eexists. split; [reflexivity|]. by apply Hlisting.
Defined.

(** X18.  Whatever happened after mount, the Deselect button of a listed item
    takes that item's entry out of the store: the count drops by one, no
    listed item bears its identifier any more, and the other entries stay. *)
Theorem deselect_click_removes_item (evs : list event) (items : list PanelItem)
    (item : PanelItem) :
  panel_body (selectionPanel (selectedMap (ui (run mounted evs)))) = Listing items →
  item ∈ items →
  selected_count
    (selectionPanel (selectedMap (deselect_click item (ui (run mounted evs)))))
    = pred (selected_count (selectionPanel (selectedMap (ui (run mounted evs))))) ∧
  (∀ items' item',
     panel_body
       (selectionPanel (selectedMap (deselect_click item (ui (run mounted evs)))))
       = Listing items' →
     item' ∈ items' → key_of (item_id item') ≠ key_of (item_id item)) ∧
  (∀ k, k ≠ key_of (item_id item) →
        selectedMap (deselect_click item (ui (run mounted evs))) !! k
        = selectedMap (ui (run mounted evs)) !! k).
Proof.
  intros ->%panel_body_Listing (e & -> & [k Hk]%elem_of_read_all)%list_elem_of_fmap.
  pose proof (keyed_run evs mounted keyed_mounted) as Hkeyed.
  pose proof (Hkeyed k e Hk) as Hke. simpl in Hke.
  unfold deselect_click. cbn [render_item item_id].
  change (selectedMap (removeFromSelection (Entry.id e) (ui (run mounted evs))))
    with (delete (key_of (Entry.id e)) (selectedMap (ui (run mounted evs)))).
  rewrite Hke. split; [|split].
  - unfold selectionPanel. cbn [selected_count]. rewrite !length_read_all.
    by rewrite map_size_delete_Some by eauto.
  - intros items' item' ->%panel_body_Listing
      (e' & -> & [k' Hk']%elem_of_read_all)%list_elem_of_fmap.
    apply lookup_delete_Some in Hk' as [Hne Hk'].
    cbn [render_item item_id]. by rewrite (Hkeyed k' e' Hk').
  - intros k' Hne. by rewrite lookup_delete_ne.
Qed.

Lemma deselect_click_removes_item_witness :
  selected_count
    (selectionPanel
       (selectedMap
          (deselect_click (render_item (entry_of (Sample.artwork 2 "b")))
             (ui (run mounted [Settle 0 (Body Sample.body1); SelectAllClick])))))
  = 2%nat.
Proof.
  destruct (deselect_click_removes_item
              [Settle 0 (Body Sample.body1); SelectAllClick]
              (render_item <$>
                 read_all (selectedMap
                   (ui (run mounted [Settle 0 (Body Sample.body1); SelectAllClick]))))
              (render_item (entry_of (Sample.artwork 2 "b"))))
    as (Hcount & _).
  - reflexivity.
  - apply list_elem_of_fmap. eexists. split; [reflexivity|].
    apply elem_of_read_all. by exists (KNum 2).
  - rewrite Hcount. reflexivity.
Defined.
